(** * MOSFiT: parameter transforms and the blackbody SED

    A shallow embedding of
      - [mosfit/modules/parameters/parameter.py] (class [Parameter]) and
      - [mosfit/modules/seds/blackbody.py]       (class [Blackbody]),
    together with the properties of the two classes.

    Conventions.
      - Python exceptions are values of [Py.exn]; a method that can raise
        returns a [Py.result].
      - A Python value that is either [None] or a number is a [pyval].
      - A [dict]/[OrderedDict]/keyword mapping is an association list in
        insertion order.
      - The [Parameter] class is written over an interface [Number] of
        scalars, whose instance is the IEEE-754 doubles ([PrimFloat]) the
        class runs on: what depends on the arithmetic is stated and proved
        on the doubles, and the control flow is proved for every instance
        of the interface.
      - The [Blackbody] class manipulates doubles, since its contract
        speaks about NaN and Inf. *)

From Stdlib Require Import Bool List String Ascii ZArith Lia.
From Stdlib Require Import PrimFloat FloatClass SpecFloat FloatOps.
From Stdlib Require Import FloatAxioms.
Import ListNotations.

Set Warnings "-inexact-float".

(* ------------------------------------------------------------------ *)
(** ** Fragments of the Python runtime *)

Module Py.

(** The exceptions the two classes can raise. *)
Inductive exn : Type :=
| ValueError
| TypeError
| KeyError
| IndexError.

(** Outcome of a call: a returned value or a raised exception. *)
Inductive result (A : Type) : Type :=
| Ok (a : A)
| Raise (e : exn).
Arguments Ok {A} a.
Arguments Raise {A} e.

Definition bind {A B : Type} (c : result A) (k : A -> result B) : result B :=
  match c with
  | Ok a => k a
  | Raise e => Raise e
  end.

Definition raises {A : Type} (c : result A) : bool :=
  match c with
  | Ok _ => false
  | Raise _ => true
  end.

(** [seq[i]] for a list and a non-negative index. *)
Definition index {A : Type} (l : list A) (i : nat) : result A :=
  match nth_error l i with
  | Some a => Ok a
  | None => Raise IndexError
  end.

(** *** Mappings in insertion order *)
Section Dict.
Variable V : Type.

Definition dict : Type := list (string * V).

(** [list(d.keys())] *)
Definition keys (d : dict) : list string := map fst d.

(** [d.get(k)] *)
Fixpoint get (d : dict) (k : string) : option V :=
  match d with
  | [] => None
  | (k', v) :: d' => if String.eqb k k' then Some v else get d' k
  end.

(** [k in d] *)
Definition contains (d : dict) (k : string) : bool :=
  match get d k with
  | Some _ => true
  | None => false
  end.

(** [d[k]] *)
Definition getitem (d : dict) (k : string) : result V :=
  match get d k with
  | Some v => Ok v
  | None => Raise KeyError
  end.

(** [d[k] = v]: an existing key keeps its position, a new key goes last. *)
Fixpoint setitem (d : dict) (k : string) (v : V) : dict :=
  match d with
  | [] => [(k, v)]
  | (k', v') :: d' =>
      if String.eqb k k' then (k', v) :: d' else (k', v') :: setitem d' k v
  end.
End Dict.

Arguments keys {V} d.
Arguments get {V} d k.
Arguments contains {V} d k.
Arguments getitem {V} d k.
Arguments setitem {V} d k v.

End Py.

Import Py.

Declare Scope py_scope.
Delimit Scope py_scope with py.
Notation "x <- c ;; k" := (Py.bind c (fun x => k))
  (at level 61, c at next level, right associativity) : py_scope.

(** [None] or a number. *)
Inductive pyval (num : Type) : Type :=
| PNone
| PNum (x : num).
Arguments PNone {num}.
Arguments PNum {num} x.

(** [v is None] *)
Definition is_none {num : Type} (v : pyval num) : bool :=
  match v with
  | PNone => true
  | PNum _ => false
  end.

(** A call [printer.message(key, args, warning=w)] of the printer
    collaborator; the printer of an object is the list of the calls it
    has received, oldest first. *)
Record message : Type := Message {
  msg_key : string;
  msg_args : list string;
  msg_warning : bool
}.

(** *** The scalar interface used by the parameter class *)

Class Number (num : Type) : Type := {
  num_zero : num;                      (* 0.0 *)
  num_one : num;                       (* 1.0 *)
  num_add : num -> num -> num;         (* x + y *)
  num_sub : num -> num -> num;         (* x - y *)
  num_mul : num -> num -> num;         (* x * y *)
  num_div : num -> num -> num;         (* x / y *)
  num_eqb : num -> num -> bool;        (* x == y *)
  num_leb : num -> num -> bool;        (* x <= y *)
  np_minimum : num -> num -> num;      (* np.minimum *)
  np_maximum : num -> num -> num;      (* np.maximum *)
  np_log : num -> num;                 (* np.log *)
  np_exp : num -> num                  (* np.exp *)
}.

(** [np.clip(a, a_min, a_max)], that is
    [np.minimum(a_max, np.maximum(a, a_min))]. *)
Definition np_clip {num : Type} `{Number num} (a a_min a_max : num) : num :=
  np_minimum a_max (np_maximum a a_min).

(* ------------------------------------------------------------------ *)
(** ** mosfit/modules/parameters/parameter.py *)

Module parameter.
Section WithNumber.
Context {num : Type} `{Number num}.

(** The keyword arguments of the constructor.  A field is [PNone] (or
    [None]) when the keyword is not supplied: the constructor reads every
    keyword with [kwargs.get(key, default)].  [name] is the keyword the
    base class [Module] stores as [self._name]. *)
Record init_kwargs : Type := InitKwargs {
  kw_name : string;
  kw_max_value : pyval num;
  kw_min_value : pyval num;
  kw_value : pyval num;
  kw_log : bool;
  kw_latex : option string;
  kw_derived_keys : list string
}.

(** The attributes of a [Parameter] object. *)
Record Param : Type := MkParam {
  _name : string;
  _printer : list message;
  _max_value : pyval num;
  _min_value : pyval num;
  _value : pyval num;
  _log : bool;
  _latex : string;
  _derived_keys : list string;
  _reference_value : pyval num;
  _clipped_warning : bool
}.

(** [self._min_value is not None and self._max_value is not None and
     self._min_value == self._max_value] *)
Definition min_max_same (mn mx : pyval num) : bool :=
  match mn, mx with
  | PNum a, PNum b => num_eqb a b
  | _, _ => false
  end.

(** [Parameter.__init__], statement by statement; a rebinding
    of a local name below is the re-assignment of the attribute. *)
Definition __init__ (kwargs : init_kwargs) : result Param :=
  let name := kw_name kwargs in
  let printer : list message := [] in
  let max_value := kw_max_value kwargs in
  let min_value := kw_min_value kwargs in
  let '(printer, value, min_value, max_value) :=
    if min_max_same min_value max_value then
      (printer ++ [Message "min_max_same" [name] true],
       min_value, PNone, PNone)
    else
      (printer, PNone, min_value, max_value) in
  let value := kw_value kwargs in
  let log := kw_log kwargs in
  let latex := match kw_latex kwargs with Some l => l | None => name end in
  let derived_keys :=
    kw_derived_keys kwargs ++ [("reference_" ++ name)%string] in
  let finish (min_value max_value : pyval num) : Param :=
    {| _name := name;
       _printer := printer;
       _max_value := max_value;
       _min_value := min_value;
       _value := value;
       _log := log;
       _latex := latex;
       _derived_keys := derived_keys;
       _reference_value := PNone;
       _clipped_warning := false |} in
  match log, min_value, max_value with
  | true, PNum mn, PNum mx =>
      if num_leb mn num_zero || num_leb mx num_zero then
        Raise ValueError
      else
        Ok (finish (PNum (np_log mn)) (PNum (np_log mx)))
  | _, _, _ => Ok (finish min_value max_value)
  end.

(** [Parameter.fix_value(value)] *)
Definition fix_value (self : Param) (value : pyval num) : Param :=
  {| _name := _name self;
     _printer := _printer self;
     _max_value := PNone;
     _min_value := PNone;
     _value := value;
     _log := _log self;
     _latex := _latex self;
     _derived_keys := _derived_keys self;
     _reference_value := _reference_value self;
     _clipped_warning := _clipped_warning self |}.

Definition is_log (self : Param) : bool := _log self.

Definition latex (self : Param) : string := _latex self.

Definition lnprior_pdf (self : Param) (x : num) : num := num_zero.

Definition prior_cdf (self : Param) (u : num) : num := u.

(** [Parameter.value(f)].  Arithmetic on [None] is a [TypeError]. *)
Definition value (self : Param) (f : pyval num) : result num :=
  match f, _max_value self, _min_value self with
  | PNum f, PNum mx, PNum mn =>
      let value :=
        np_clip (num_add (num_mul f (num_sub mx mn)) mn) mn mx in
      let value := if _log self then np_exp value else value in
      Ok value
  | _, _, _ => Raise TypeError
  end.

(** The object after [self._clipped_warning = True] and the call
    [self._printer.message('parameter_clipped', [self._name], warning=True)]. *)
Definition warn_clipped (self : Param) : Param :=
  {| _name := _name self;
     _printer :=
       _printer self ++ [Message "parameter_clipped" [_name self] true];
     _max_value := _max_value self;
     _min_value := _min_value self;
     _value := _value self;
     _log := _log self;
     _latex := _latex self;
     _derived_keys := _derived_keys self;
     _reference_value := _reference_value self;
     _clipped_warning := true |}.

(** [Parameter.fraction(value, clip)]: the returned fraction and the
    object after the call.  The division is the one of the scalars: on
    numpy doubles a zero denominator is not an exception, and the two
    bounds of a constructed object are not equal. *)
Definition fraction (self : Param) (value : pyval num) (clip : bool)
  : result (num * Param) :=
  match value, _min_value self, _max_value self with
  | PNum value, PNum mn, PNum mx =>
      let value := if _log self then np_log value else value in
      let f := num_div (num_sub value mn) (num_sub mx mn) in
      if clip then
        let of_ := f in
        let f := np_clip f num_zero num_one in
        if negb (num_eqb f of_) && negb (_clipped_warning self) then
          Ok (f, warn_clipped self)
        else
          Ok (f, self)
      else
        Ok (f, self)
  | _, _, _ => Raise TypeError
  end.

Definition get_derived_keys (self : Param) : list string :=
  _derived_keys self.

(** [Parameter.process], called with the keyword mapping [kwargs]. *)
Definition process (self : Param) (kwargs : dict (pyval num))
  : result (dict (pyval num)) :=
  let finish (value : pyval num) : result (dict (pyval num)) :=
    let output : dict (pyval num) := [(_name self, value)] in
    let output :=
      if negb (is_none (_reference_value self)) then
        setitem output ("reference_" ++ _name self)%string
          (_reference_value self)
      else output in
    Ok output in
  if contains kwargs (_name self)
     || is_none (_min_value self) || is_none (_max_value self)
  then
    if contains kwargs (_name self) then Ok []
    else finish (_value self)
  else
    (f <- getitem kwargs "fraction" ;;
     v <- value self f ;;
     finish (PNum v))%py.

(** The object after [self._reference_value = v]. *)
Definition set_reference_value (self : Param) (v : pyval num) : Param :=
  {| _name := _name self;
     _printer := _printer self;
     _max_value := _max_value self;
     _min_value := _min_value self;
     _value := _value self;
     _log := _log self;
     _latex := _latex self;
     _derived_keys := _derived_keys self;
     _reference_value := v;
     _clipped_warning := _clipped_warning self |}.

(** [Parameter.receive_requests], called with the mapping [requests]. *)
Definition receive_requests (self : Param) (requests : dict (pyval num))
  : Param :=
  let req_keys := keys requests in
  match req_keys with
  | [] => self
  | k0 :: _ =>
      set_reference_value self
        (match get requests k0 with Some v => v | None => PNone end)
  end.

(** *** Notions used to state the properties of the class *)

(** The parameter has a [min, max] range: both bounds are present. *)
Definition has_range (self : Param) : bool :=
  negb (is_none (_min_value self)) && negb (is_none (_max_value self)).

(** The physical value of a stored bound: the bounds of a log parameter
    are stored in natural-log space. *)
Definition physical (self : Param) (stored : num) : num :=
  if _log self then np_exp stored else stored.

(** The entry [process] appends for the reference value, if any. *)
Definition reference_entry (self : Param) : dict (pyval num) :=
  match _reference_value self with
  | PNone => []
  | PNum r => [(("reference_" ++ _name self)%string, PNum r)]
  end.

(** The calls an object receives during its life. *)
Inductive call : Type :=
| CallFraction (value : pyval num) (clip : bool)
| CallValue (f : pyval num)
| CallProcess (kwargs : dict (pyval num))
| CallReceiveRequests (requests : dict (pyval num))
| CallFixValue (value : pyval num).

(** The object after a call; a call that raises leaves it as it was. *)
Definition after (self : Param) (c : call) : Param :=
  match c with
  | CallFraction value clip =>
      match fraction self value clip with
      | Ok (_, self') => self'
      | Raise _ => self
      end
  | CallValue _ => self
  | CallProcess _ => self
  | CallReceiveRequests requests => receive_requests self requests
  | CallFixValue value => fix_value self value
  end.

(** The object after a sequence of calls. *)
Definition after_all (self : Param) (calls : list call) : Param :=
  fold_left after calls self.

Definition is_clip_warning (m : message) : bool :=
  String.eqb (msg_key m) "parameter_clipped" && msg_warning m.

(** How many clipping warnings the printer of the object has received. *)
Definition clip_warnings (self : Param) : nat :=
  List.length (filter is_clip_warning (_printer self)).

(** The call is [fraction(value, clip=True)] and the test [f != of] of
    the code holds: the clipped fraction compares unequal to the
    unclipped one.  On doubles this is the case when the unclipped
    fraction is below 0, above 1, or NaN. *)
Definition clipping_changes (self : Param) (c : call) : bool :=
  match c with
  | CallFraction (PNum value) true =>
      match _min_value self, _max_value self with
      | PNum mn, PNum mx =>
          let value := if _log self then np_log value else value in
          let f := num_div (num_sub value mn) (num_sub mx mn) in
          negb (num_eqb (np_clip f num_zero num_one) f)
      | _, _ => false
      end
  | _ => false
  end.

End WithNumber.

Arguments init_kwargs num : clear implicits.
Arguments Param num : clear implicits.
Arguments call num : clear implicits.

End parameter.

(** *** IEEE-754 doubles as scalars

    The arithmetic and the comparisons are those of binary64.  The
    logarithm and the exponential of the C library are not part of the
    two files; [libm.log_double] and [libm.exp_double] stand for them
    when a class is run on concrete doubles, and agree with them up to
    rounding. *)

Module libm.

Local Open Scope float_scope.

(** The Taylor polynomial [1 + y/k (1 + y/(k+1) (...))] with [n] terms. *)
Fixpoint taylor (n : nat) (k y : float) : float :=
  match n with
  | O => 1
  | S n' => 1 + y / k * taylor n' (k + 1) y
  end.

(** The natural logarithm of 2, in two pieces. *)
Definition LN2 : float := 0x1.62e42fefa39efp-1.
Definition LN2_HI : float := 0x1.62e42feep-1.
Definition LN2_LO : float := 0x1.a39ef35793c76p-33.

(** The integer an integral double stands for. *)
Definition Z_of_float (k : float) : Z :=
  match Prim2SF k with
  | S754_finite s m e =>
      let z := if (0 <=? e)%Z then Z.shiftl (Zpos m) e
               else Z.shiftr (Zpos m) (- e) in
      if s then (- z)%Z else z
  | _ => 0%Z
  end.

(** [exp(k log 2 + r) = 2^k exp(r)], with [k] the integer nearest to
    [x / log 2]. *)
Definition exp_double (x : float) : float :=
  match classify x with
  | NaN => nan
  | PInf => infinity
  | NInf => 0
  | _ =>
      if x <? -746 then 0
      else if 710 <? x then infinity
      else
        let k := (x / LN2 + 0x1.8p52) - 0x1.8p52 in
        let r := (x - k * LN2_HI) - k * LN2_LO in
        Z.ldexp (taylor 20 1 r) (Z_of_float k)
  end.

(** The series [1/k + s2 (1/(k+2) + s2 (...))] with [n] terms. *)
Fixpoint atanh_series (n : nat) (k s2 : float) : float :=
  match n with
  | O => 1 / k
  | S n' => 1 / k + s2 * atanh_series n' (k + 2) s2
  end.

Fixpoint float_of_positive (p : positive) : float :=
  match p with
  | xH => 1
  | xO p' => 2 * float_of_positive p'
  | xI p' => 2 * float_of_positive p' + 1
  end.

Definition float_of_Z (z : Z) : float :=
  match z with
  | Z0 => 0
  | Zpos p => float_of_positive p
  | Zneg p => - float_of_positive p
  end.

(** [log(m 2^e) = e log 2 + 2 atanh((m - 1) / (m + 1))], with [m]
    between [sqrt(1/2)] and [sqrt(2)]. *)
Definition log_double (x : float) : float :=
  match classify x with
  | NaN => nan
  | PInf => infinity
  | PZero | NZero => neg_infinity
  | NInf | NNormal | NSubn => nan
  | PNormal | PSubn =>
      let (m, e) := Z.frexp x in
      let (m, e) :=
        if m <? 0x1.6a09e667f3bcdp-1 then (2 * m, (e - 1)%Z) else (m, e) in
      let s := (m - 1) / (m + 1) in
      float_of_Z e * LN2 + 2 * s * atanh_series 24 1 (s * s)
  end.

End libm.

(** [np.maximum] and [np.minimum] on doubles: a NaN operand is returned. *)
Definition float_maximum (x y : float) : float :=
  if PrimFloat.is_nan x then x
  else if PrimFloat.is_nan y then y
  else if PrimFloat.ltb x y then y else x.

Definition float_minimum (x y : float) : float :=
  if PrimFloat.is_nan x then x
  else if PrimFloat.is_nan y then y
  else if PrimFloat.ltb y x then y else x.

#[export] Instance float_Number : Number float := {|
  num_zero := PrimFloat.zero;
  num_one := PrimFloat.one;
  num_add := PrimFloat.add;
  num_sub := PrimFloat.sub;
  num_mul := PrimFloat.mul;
  num_div := PrimFloat.div;
  num_eqb := PrimFloat.eqb;
  num_leb := PrimFloat.leb;
  np_minimum := float_minimum;
  np_maximum := float_maximum;
  np_log := libm.log_double;
  np_exp := libm.exp_double
|}.

(* ------------------------------------------------------------------ *)
(** ** mosfit/modules/seds/blackbody.py *)

Module blackbody.

Local Open Scope float_scope.

(** A one-dimensional [numpy.ndarray] of doubles, or a Python [list] of
    doubles.  The two support different operators. *)
Inductive pyseq : Type :=
| NdArray (a : list float)
| PyList (l : list float).

Definition elements (s : pyseq) : list float :=
  match s with
  | NdArray a => a
  | PyList l => l
  end.

(** The largest finite double. *)
Definition DBL_MAX : float := 0x1.fffffffffffffp+1023.

(** [np.nan_to_num] on one double: NaN becomes 0.0, +Inf the largest
    finite double, -Inf the most negative one. *)
Definition nan_to_num (x : float) : float :=
  match classify x with
  | NaN => 0
  | PInf => DBL_MAX
  | NInf => - DBL_MAX
  | _ => x
  end.

(** [np.isfinite] on one double. *)
Definition isfinite (x : float) : bool :=
  match classify x with
  | NaN | PInf | NInf => false
  | _ => true
  end.

(** [np.zeros_like(a)] *)
Definition zeros_like (a : list float) : pyseq :=
  NdArray (map (fun _ => 0) a).

(** [seq ** 2]: elementwise on an array; a [list] has no power operator. *)
Definition py_pow2 (s : pyseq) : result pyseq :=
  match s with
  | NdArray a => Ok (NdArray (map (fun x => x * x) a))
  | PyList _ => Raise TypeError
  end.

(** [seq / c] for a double [c]: elementwise on an array; a [list] has no
    division operator. *)
Definition py_div_scalar (s : pyseq) (c : float) : result pyseq :=
  match s with
  | NdArray a => Ok (NdArray (map (fun x => x / c) a))
  | PyList _ => Raise TypeError
  end.

(** Elementwise product of two arrays under numpy broadcasting, for the
    shapes an in-place [a *= b] accepts: equal lengths, or [b] of
    length one. *)
Fixpoint mul_zip (a b : list float) : list float :=
  match a, b with
  | x :: a', y :: b' => (x * y) :: mul_zip a' b'
  | _, _ => []
  end.

(** [sed *= q] for an array [sed]. *)
Definition imul (sed : list float) (q : pyseq) : result pyseq :=
  match q with
  | NdArray [y] => Ok (NdArray (map (fun x => x * y) sed))
  | NdArray b =>
      if Nat.eqb (List.length sed) (List.length b)
      then Ok (NdArray (mul_zip sed b))
      else Raise ValueError
  | PyList _ => Raise TypeError
  end.

(** The two entry points of the expression evaluator. *)
Inductive ne_call : Type :=
| Evaluate
| ReEvaluate.

(** The keyword arguments read by [process]. *)
Record process_kwargs : Type := ProcessKwargs {
  luminosities : list float;
  all_bands : list string;
  all_band_indices : list Z;
  all_frequencies : list (pyval float);
  radiusphot : list float;
  temperaturephot : list float;
  redshift : float
}.

(** The attributes of a [Blackbody] object: the cached wavelength grids
    (one array per band) and the inputs of the last call. *)
Record Blackbody : Type := MkBlackbody {
  _sample_wavelengths : list (list float);
  _luminosities : list float;
  _bands : list string;
  _band_indices : list Z;
  _frequencies : list (pyval float);
  _radius_phot : list float;
  _temperature_phot : list float
}.

(** The local state of the loop of [process]. *)
Record loop_state : Type := LoopState {
  seds : list pyseq;
  evaled : bool;
  ne_calls : list ne_call
}.

(** The returned mapping
    [{'sample_wavelengths': ..., 'seds': ...}]. *)
Record output : Type := Output {
  out_sample_wavelengths : list (list float);
  out_seds : list pyseq
}.

Section WithBackend.

(** Class attributes computed from the constants of astropy. *)
Variables C_CONST FLUX_CONST X_CONST : float.
(** [u.Angstrom.cgs.scale] *)
Variable ANGSTROM_CGS : float.
(** The exponential of the expression evaluator. *)
Variable ne_exp : float -> float.
(** [SED.add_to_existing_seds(seds, kwargs)] of the base class. *)
Variable add_to_existing_seds : list pyseq -> process_kwargs -> list pyseq.

(** The expression
    [fc * radius_phot**2 / rest_wavs**5 /
       (exp(xc / rest_wavs / temperature_phot) - 1.0)]
    at one element of [rest_wavs].  The evaluator expands a constant
    integer power into products. *)
Definition planck (radius_phot temperature_phot rest_wav : float) : float :=
  let fc := FLUX_CONST in
  let xc := X_CONST in
  fc * (radius_phot * radius_phot)
    / (rest_wav * ((rest_wav * rest_wav) * (rest_wav * rest_wav)))
    / (ne_exp (xc / rest_wav / temperature_phot) - 1).

(** [ne.evaluate(...)] and [ne.re_evaluate()]: the operands are read from
    the caller's frame and converted to arrays; the result is an array. *)
Definition ne_evaluate (radius_phot temperature_phot : float)
  (rest_wavs : pyseq) : list float :=
  map (planck radius_phot temperature_phot) (elements rest_wavs).

(** [self._frequencies[li] * zp1]; [None] has no product. *)
Definition times_zp1 (freq : pyval float) (zp1 : float) : result float :=
  match freq with
  | PNum nu => Ok (nu * zp1)
  | PNone => Raise TypeError
  end.

(** One iteration of [for li, lum in enumerate(self._luminosities)]. *)
Definition epoch (self : Blackbody) (zp1 : float) (st : loop_state)
  (li : nat) (lum : float) : result loop_state :=
  let cc := C_CONST in
  (radius_phot <- index (_radius_phot self) li ;;
   temperature_phot <- index (_temperature_phot self) li ;;
   bi <- index (_band_indices self) li ;;
   if lum =? 0 then
     if (bi >=? 0)%Z then
       grid <- index (_sample_wavelengths self) (Z.to_nat bi) ;;
       Ok {| seds := seds st ++ [zeros_like grid];
             evaled := evaled st;
             ne_calls := ne_calls st |}
     else
       Ok {| seds := seds st ++ [PyList [0]];
             evaled := evaled st;
             ne_calls := ne_calls st |}
   else
     rest_wavs <-
       (if (bi >=? 0)%Z then
          grid <- index (_sample_wavelengths self) (Z.to_nat bi) ;;
          Ok (NdArray (map (fun w => w * ANGSTROM_CGS / zp1) grid))
        else
          nu <- index (_frequencies self) li ;;
          nu_zp1 <- times_zp1 nu zp1 ;;
          Ok (PyList [cc / nu_zp1])) ;;
     let sed := ne_evaluate radius_phot temperature_phot rest_wavs in
     let call := if evaled st then ReEvaluate else Evaluate in
     let sed := map nan_to_num sed in
     sed <-
       (if (bi <? 0)%Z then
          p <- py_pow2 rest_wavs ;;
          q <- py_div_scalar p cc ;;
          imul sed q
        else Ok (NdArray sed)) ;;
     Ok {| seds := seds st ++ [sed];
           evaled := true;
           ne_calls := ne_calls st ++ [call] |})%py.

(** [enumerate(l)] *)
Definition enumerate {A : Type} (l : list A) : list (nat * A) :=
  combine (seq 0 (List.length l)) l.

(** The loop, from the state [st] over the remaining items. *)
Fixpoint for_loop (self : Blackbody) (zp1 : float) (st : loop_state)
  (items : list (nat * float)) : result loop_state :=
  match items with
  | [] => Ok st
  | (li, lum) :: items' =>
      (st' <- epoch self zp1 st li lum ;;
       for_loop self zp1 st' items')%py
  end.

(** Lines 26-31 of [process]: the inputs are stored on the object. *)
Definition store_inputs (self : Blackbody) (kwargs : process_kwargs)
  : Blackbody :=
  {| _sample_wavelengths := _sample_wavelengths self;
     _luminosities := luminosities kwargs;
     _bands := all_bands kwargs;
     _band_indices := all_band_indices kwargs;
     _frequencies := all_frequencies kwargs;
     _radius_phot := radiusphot kwargs;
     _temperature_phot := temperaturephot kwargs |}.

(** Lines 32-69 of [process]: the loop that builds the fresh spectra. *)
Definition fresh_seds (self : Blackbody) (kwargs : process_kwargs)
  : result loop_state :=
  let self := store_inputs self kwargs in
  let zp1 := 1 + redshift kwargs in
  let st := {| seds := []; evaled := false; ne_calls := [] |} in
  for_loop self zp1 st (enumerate (_luminosities self)).

(** [Blackbody.process]: the returned mapping and the object after the
    call. *)
Definition process (self : Blackbody) (kwargs : process_kwargs)
  : result (output * Blackbody) :=
  (st <- fresh_seds self kwargs ;;
   let self := store_inputs self kwargs in
   let seds := add_to_existing_seds (seds st) kwargs in
   Ok ({| out_sample_wavelengths := _sample_wavelengths self;
          out_seds := seds |}, self))%py.

(** The epoch [li] is band-indexed with a cached grid, or it is
    frequency-indexed and without emission; its inputs are present. *)
Definition epoch_completes (self : Blackbody) (kwargs : process_kwargs)
  (li : nat) (lum : float) : bool :=
  match nth_error (radiusphot kwargs) li,
        nth_error (temperaturephot kwargs) li,
        nth_error (all_band_indices kwargs) li with
  | Some _, Some _, Some bi =>
      if (bi >=? 0)%Z then
        match nth_error (_sample_wavelengths self) (Z.to_nat bi) with
        | Some _ => true
        | None => false
        end
      else lum =? 0
  | _, _, _ => false
  end.

Definition all_complete (self : Blackbody) (kwargs : process_kwargs) : bool :=
  forallb (fun item => epoch_completes self kwargs (fst item) (snd item))
    (enumerate (luminosities kwargs)).

End WithBackend.

End blackbody.

(* ------------------------------------------------------------------ *)
(** ** Concrete parameters *)

Module run_parameter.

Import parameter.
Local Open Scope float_scope.

(** [Parameter(name='x', min_value=3.0, max_value=3.0)], on doubles. *)
Definition degenerate_kwargs : init_kwargs float :=
  {| kw_name := "x";
     kw_max_value := PNum 3%float;
     kw_min_value := PNum 3%float;
     kw_value := PNone;
     kw_log := false;
     kw_latex := None;
     kw_derived_keys := [] |}.

(** [Parameter(name='x', log=True, min_value=-1.0, max_value=-1.0)],
    on doubles. *)
Definition log_degenerate_kwargs : init_kwargs float :=
  {| kw_name := "x";
     kw_max_value := PNum (-1)%float;
     kw_min_value := PNum (-1)%float;
     kw_value := PNone;
     kw_log := true;
     kw_latex := None;
     kw_derived_keys := [] |}.

(** [Parameter(name='x', log=True, min_value=-1.0, max_value=5.0)],
    on doubles. *)
Definition log_negative_kwargs : init_kwargs float :=
  {| kw_name := "x";
     kw_max_value := PNum 5%float;
     kw_min_value := PNum (-1)%float;
     kw_value := PNone;
     kw_log := true;
     kw_latex := None;
     kw_derived_keys := [] |}.

(** [Parameter(name='x', min_value=0, max_value=10)] *)
Definition linear_kwargs : init_kwargs float :=
  {| kw_name := "x";
     kw_max_value := PNum 10;
     kw_min_value := PNum 0;
     kw_value := PNone;
     kw_log := false;
     kw_latex := None;
     kw_derived_keys := [] |}.

(** The object the constructor builds from [linear_kwargs]. *)
Definition linear_param : Param float :=
  {| _name := "x";
     _printer := [];
     _max_value := PNum 10;
     _min_value := PNum 0;
     _value := PNone;
     _log := false;
     _latex := "x";
     _derived_keys := ["reference_x"%string];
     _reference_value := PNone;
     _clipped_warning := false |}.

(** A fixed parameter [x = 7] that has received the reference value 4. *)
Definition fixed_param : Param float :=
  {| _name := "x";
     _printer := [];
     _max_value := PNone;
     _min_value := PNone;
     _value := PNum 7;
     _log := false;
     _latex := "x";
     _derived_keys := ["reference_x"%string];
     _reference_value := PNum 4;
     _clipped_warning := false |}.

(** Three calls of [fraction] outside the range [0, 10]. *)
Definition clipped_calls : list (call float) :=
  [CallFraction (PNum 20) true; CallFraction (PNum 30) true;
   CallFraction (PNum (-5)) true].

End run_parameter.

(* ------------------------------------------------------------------ *)
(** ** Concrete epochs *)

Module run.

Local Open Scope float_scope.

(** Speed of light in cm/s, [c.c.cgs.value]. *)
Definition C_CONST : float := 29979245800.
(** [h c / k_B] in cm K. *)
Definition X_CONST : float := 1.4387768775039337.
(** [FOUR_PI * 2 h c^2 pi] in cgs units, times [u.Angstrom.cgs.scale]. *)
Definition FLUX_CONST : float := 4.7020492e-12.
(** [u.Angstrom.cgs.scale]: one Angstrom in cm. *)
Definition ANGSTROM_CGS : float := 1e-08.

(** An object caching one band with the grid [4000, 5000, 6000]. *)
Definition one_band : blackbody.Blackbody :=
  {| blackbody._sample_wavelengths := [[4000; 5000; 6000]];
     blackbody._luminosities := [];
     blackbody._bands := [];
     blackbody._band_indices := [];
     blackbody._frequencies := [];
     blackbody._radius_phot := [];
     blackbody._temperature_phot := [] |}.

(** One band-indexed epoch whose photospheric radius squared overflows. *)
Definition huge_radius : blackbody.process_kwargs :=
  {| blackbody.luminosities := [1e43];
     blackbody.all_bands := ["V"%string];
     blackbody.all_band_indices := [0%Z];
     blackbody.all_frequencies := [PNone];
     blackbody.radiusphot := [1e200];
     blackbody.temperaturephot := [6000];
     blackbody.redshift := 0 |}.

(** Two epochs without emission: one on the band, one on a frequency. *)
Definition dark_epochs : blackbody.process_kwargs :=
  {| blackbody.luminosities := [0; 0];
     blackbody.all_bands := ["V"%string];
     blackbody.all_band_indices := [0%Z; (-1)%Z];
     blackbody.all_frequencies := [PNone; PNum 1e9];
     blackbody.radiusphot := [1e15; 1e15];
     blackbody.temperaturephot := [6000; 6000];
     blackbody.redshift := 0 |}.

(** One band-indexed epoch of a 6000 K photosphere of radius 1e15 cm. *)
Definition band_epoch : blackbody.process_kwargs :=
  {| blackbody.luminosities := [1e43];
     blackbody.all_bands := ["V"%string];
     blackbody.all_band_indices := [0%Z];
     blackbody.all_frequencies := [PNone];
     blackbody.radiusphot := [1e15];
     blackbody.temperaturephot := [6000];
     blackbody.redshift := 0 |}.

(** One frequency-indexed epoch, at 1 GHz, with nonzero luminosity. *)
Definition radio_epoch : blackbody.process_kwargs :=
  {| blackbody.luminosities := [1e43];
     blackbody.all_bands := ["V"%string];
     blackbody.all_band_indices := [(-1)%Z];
     blackbody.all_frequencies := [PNum 1e9];
     blackbody.radiusphot := [1e15];
     blackbody.temperaturephot := [6000];
     blackbody.redshift := 0 |}.

End run.

(* ------------------------------------------------------------------ *)
(** ** Further concrete inputs *)

Module run_more.

Import parameter.

(** [Parameter(name='x', value=7)] *)
Definition fixed_kwargs : init_kwargs float :=
  {| kw_name := "x";
     kw_max_value := PNone;
     kw_min_value := PNone;
     kw_value := PNum 7%float;
     kw_log := false;
     kw_latex := None;
     kw_derived_keys := ["y"%string] |}.

(** A [value] call followed by a request. *)
Definition quiet_calls : list (call float) :=
  [CallValue (PNum 1%float);
   CallReceiveRequests [("a"%string, PNum 1%float)]].

(** Three epochs: two on the band with emission, between them one on a
    frequency without emission. *)
Definition mixed_epochs : blackbody.process_kwargs :=
  {| blackbody.luminosities := [1e43; 0; 2e43]%float;
     blackbody.all_bands := ["V"%string];
     blackbody.all_band_indices := [0%Z; (-1)%Z; 0%Z];
     blackbody.all_frequencies := [PNone; PNum 1e9%float; PNone];
     blackbody.radiusphot := [1e15; 1e15; 2e15]%float;
     blackbody.temperaturephot := [6000; 6000; 5000]%float;
     blackbody.redshift := 0.5%float |}.

(** Two epochs on the band, the second without a radius. *)
Definition short_radius : blackbody.process_kwargs :=
  {| blackbody.luminosities := [0; 1e43]%float;
     blackbody.all_bands := ["V"%string];
     blackbody.all_band_indices := [0%Z; 0%Z];
     blackbody.all_frequencies := [PNone; PNone];
     blackbody.radiusphot := [1e15]%float;
     blackbody.temperaturephot := [6000; 6000]%float;
     blackbody.redshift := 0%float |}.

End run_more.

(* ------------------------------------------------------------------ *)
(** ** Classes of binary64 values

    The three classes of the values [Prim2SF] gives for a double that
    matter for the arithmetic of the parameter class. *)

Module binary64.

Definition sf_nan (p : spec_float) : bool :=
  match p with S754_nan => true | _ => false end.

Definition sf_inf (p : spec_float) : bool :=
  match p with S754_infinity _ => true | _ => false end.

Definition sf_zero (p : spec_float) : bool :=
  match p with S754_zero _ => true | _ => false end.

End binary64.

(* ------------------------------------------------------------------ *)
(** ** Concrete parameters at the limits of the doubles *)

Module run_double.

Import parameter.
Local Open Scope float_scope.

(** [Parameter(name='x', min_value=-1e308, max_value=1e308)]: the
    difference of the two bounds is beyond the largest double. *)
Definition wide_kwargs : init_kwargs float :=
  {| kw_name := "x";
     kw_max_value := PNum 1e308;
     kw_min_value := PNum (-1e308);
     kw_value := PNone;
     kw_log := false;
     kw_latex := None;
     kw_derived_keys := [] |}.

(** The object the constructor builds from [wide_kwargs]. *)
Definition wide_double : Param float :=
  {| _name := "x";
     _printer := [];
     _max_value := PNum 1e308;
     _min_value := PNum (-1e308);
     _value := PNone;
     _log := false;
     _latex := "x";
     _derived_keys := ["reference_x"%string];
     _reference_value := PNone;
     _clipped_warning := false |}.


(** [Parameter(name='x', log=True, min_value=1.0, max_value=2.0)] *)
Definition log_double_kwargs : init_kwargs float :=
  {| kw_name := "x";
     kw_max_value := PNum 2;
     kw_min_value := PNum 1;
     kw_value := PNone;
     kw_log := true;
     kw_latex := None;
     kw_derived_keys := [] |}.

(** [fraction(-5.0)] and then [fraction(20.0)], both with clipping. *)
Definition nan_then_clipped : list (call float) :=
  [CallFraction (PNum (-5)) true; CallFraction (PNum 20) true].

(** A clipped [fraction] call and a [value] call. *)
Definition two_calls : list (call float) :=
  [CallFraction (PNum 20) true; CallValue (PNum 0.5)].

End run_double.

(* ------------------------------------------------------------------ *)
(** ** Properties *)

Section ParameterFacts.
Import parameter.
Context {num : Type} `{Number num}.

Implicit Types (self : Param num) (kwargs requests : dict (pyval num)).

(** The key of the reference entry never collides with the name. *)
Lemma reference_key_fresh (name : string) :
  String.eqb ("reference_" ++ name) name = false.
Proof.
  apply String.eqb_neq. intros Heq.
  apply (f_equal String.length) in Heq. cbn in Heq. lia.
Qed.

Lemma has_range_bounds self :
  has_range self = true <->
  exists mn mx, _min_value self = PNum mn /\ _max_value self = PNum mx.
Proof.
  unfold has_range. split.
  - destruct (_min_value self) as [ | mn ], (_max_value self) as [ | mx ];
      try discriminate. intros _. exists mn, mx. split; reflexivity.
  - intros [mn [mx [-> ->]]]. reflexivity.
Qed.

Lemma no_range_or self :
  is_none (_min_value self) || is_none (_max_value self)
    = negb (has_range self).
Proof.
  unfold has_range.
  destruct (_min_value self), (_max_value self); reflexivity.
Qed.

(** The mapping [process] builds around the value [v]. *)
Lemma process_finish self (v : pyval num) :
  (let output : dict (pyval num) := [(_name self, v)] in
   if negb (is_none (_reference_value self)) then
     setitem output ("reference_" ++ _name self)%string
       (_reference_value self)
   else output)
  = (_name self, v) :: reference_entry self.
Proof.
  unfold reference_entry. cbn zeta.
  destruct (_reference_value self) as [ | r ]; cbn [is_none negb].
  - reflexivity.
  - cbn [setitem]. rewrite reference_key_fresh. reflexivity.
Qed.

(** The three paths of [process]. *)
Lemma process_paths self kwargs :
  process self kwargs =
    if contains kwargs (_name self) then Ok []
    else if has_range self then
      (f <- getitem kwargs "fraction" ;;
       v <- value self f ;;
       Ok ((_name self, PNum v) :: reference_entry self))%py
    else Ok ((_name self, _value self) :: reference_entry self).
Proof.
  unfold process.
  destruct (contains kwargs (_name self)); [ reflexivity | ].
  cbn [orb]. rewrite no_range_or.
  destruct (has_range self); cbn [negb].
  - destruct (getitem kwargs "fraction") as [f | ]; [ | reflexivity ].
    cbn [bind]. destruct (value self f) as [v | ]; [ | reflexivity ].
    cbn [bind]. rewrite process_finish. reflexivity.
  - rewrite process_finish. reflexivity.
Qed.

(** A completed [process] on an input without the name returns one
    entry for the name, then the reference entry. *)
Lemma process_shape self kwargs (out : dict (pyval num)) :
  process self kwargs = Ok out ->
  contains kwargs (_name self) = false ->
  exists v, out = (_name self, v) :: reference_entry self.
Proof.
  rewrite process_paths. intros Hout Hin. rewrite Hin in Hout.
  destruct (has_range self).
  - destruct (getitem kwargs "fraction") as [f | ]; [ | discriminate Hout ].
    cbn [bind] in Hout.
    destruct (value self f) as [v | ]; [ | discriminate Hout ].
    cbn [bind] in Hout. injection Hout as <-. eexists; reflexivity.
  - injection Hout as <-. eexists; reflexivity.
Qed.

(** C6. [process] returns the empty mapping when the parameter's name is
    a key of its input.  Otherwise it returns an ordered mapping whose
    first entry binds the name to the fixed value (no range) or to
    [value(kwargs['fraction'])] (range), followed by the entry
    [reference_<name>] exactly when a reference value is stored. *)
Theorem C6_process_output self kwargs :
  (contains kwargs (_name self) = true -> process self kwargs = Ok [])
  /\ (contains kwargs (_name self) = false ->
      has_range self = false ->
      process self kwargs
        = Ok ((_name self, _value self) :: reference_entry self))
  /\ (contains kwargs (_name self) = false ->
      has_range self = true ->
      forall f v,
        get kwargs "fraction" = Some f ->
        value self f = Ok v ->
        process self kwargs
          = Ok ((_name self, PNum v) :: reference_entry self))
  /\ (_reference_value self = PNone -> reference_entry self = [])
  /\ (forall r,
        _reference_value self = PNum r ->
        reference_entry self
          = [(("reference_" ++ _name self)%string, PNum r)])
  /\ (forall out,
        process self kwargs = Ok out ->
        contains kwargs (_name self) = false ->
        nth_error (keys out) 0 = Some (_name self)
        /\ (nth_error (keys out) 1
              = Some ("reference_" ++ _name self)%string
            <-> _reference_value self <> PNone)
        /\ nth_error (keys out) 2 = None).
Proof.
  split; [ | split; [ | split; [ | split; [ | split ] ] ] ].
  - intros Hin. rewrite process_paths, Hin. reflexivity.
  - intros Hin Hrange. rewrite process_paths, Hin, Hrange. reflexivity.
  - intros Hin Hrange f v Hf Hv.
    rewrite process_paths, Hin, Hrange. unfold getitem. rewrite Hf.
    cbn [bind]. rewrite Hv. reflexivity.
  - unfold reference_entry. intros ->. reflexivity.
  - unfold reference_entry. intros r ->. reflexivity.
  - intros out Hout Hin.
    destruct (process_shape _ _ _ Hout Hin) as [v ->].
    unfold reference_entry.
    destruct (_reference_value self) as [ | r ]; cbn.
    + repeat split; congruence.
    + repeat split; congruence.
Qed.

(** The reference value does not enter the value [process] resolves. *)
Lemma set_reference_value_paths self (v : pyval num) kwargs :
  process (set_reference_value self v) kwargs =
    if contains kwargs (_name self) then Ok []
    else if has_range self then
      (f <- getitem kwargs "fraction" ;;
       x <- value self f ;;
       Ok ((_name self, PNum x)
             :: reference_entry (set_reference_value self v)))%py
    else Ok ((_name self, _value self)
               :: reference_entry (set_reference_value self v)).
Proof. rewrite process_paths. reflexivity. Qed.

(** C7. [receive_requests] with a non-empty mapping stores the value of
    its first entry as the reference value and changes nothing else;
    after two calls the stored value is the one of the second call, and
    the entry [reference_<name>] of the next [process] output holds that
    value and nothing of the first call. *)
Theorem C7_receive_requests_first_entry self (m1 : dict (pyval num))
  (k : string) (v : pyval num) (rest : dict (pyval num)) kwargs :
  let m2 := (k, v) :: rest in
  let self2 := receive_requests (receive_requests self m1) m2 in
  let entry :=
    match v with
    | PNone => []
    | PNum r => [(("reference_" ++ _name self)%string, PNum r)]
    end in
  receive_requests self m2 = set_reference_value self v
  /\ self2 = set_reference_value self v
  /\ _reference_value self2 = v
  /\ (contains kwargs (_name self) = false ->
      has_range self = false ->
      process self2 kwargs = Ok ((_name self, _value self) :: entry))
  /\ (contains kwargs (_name self) = false ->
      has_range self = true ->
      forall f x,
        get kwargs "fraction" = Some f ->
        value self f = Ok x ->
        process self2 kwargs = Ok ((_name self, PNum x) :: entry)).
Proof.
  intros m2 self2 entry.
  assert (Hfirst : forall p : Param num,
             receive_requests p m2 = set_reference_value p v).
  { intros p. unfold receive_requests, m2. cbn [keys map fst get].
    rewrite String.eqb_refl. reflexivity. }
  assert (Hself2 : self2 = set_reference_value self v).
  { unfold self2. rewrite Hfirst. unfold receive_requests.
    destruct (keys m1); reflexivity. }
  assert (Hentry : reference_entry (set_reference_value self v) = entry).
  { unfold reference_entry, entry. cbn. destruct v; reflexivity. }
  split; [ apply Hfirst | ].
  split; [ exact Hself2 | ].
  split; [ rewrite Hself2; reflexivity | ].
  rewrite Hself2. split.
  - intros Hin Hrange.
    rewrite set_reference_value_paths, Hin, Hrange, Hentry. reflexivity.
  - intros Hin Hrange f x Hf Hx.
    rewrite set_reference_value_paths, Hin, Hrange, Hentry.
    unfold getitem. rewrite Hf. cbn [bind]. rewrite Hx. reflexivity.
Qed.

(** The constructor raises exactly on a log parameter with two distinct
    bounds of which one is not positive. *)
Lemma init_raises_iff (kw : init_kwargs num) :
  raises (__init__ kw) = true <->
  kw_log kw = true
  /\ exists mn mx,
       kw_min_value kw = PNum mn /\ kw_max_value kw = PNum mx
       /\ num_eqb mn mx = false
       /\ (num_leb mn num_zero = true \/ num_leb mx num_zero = true).
Proof.
  unfold __init__, min_max_same.
  destruct (kw_log kw) eqn:Hlog.
  2: { split.
       - destruct (kw_min_value kw) as [ | mn ], (kw_max_value kw) as [ | mx ];
           try discriminate.
         destruct (num_eqb mn mx); discriminate.
       - intros [Hl _]. discriminate Hl. }
  destruct (kw_min_value kw) as [ | mn ], (kw_max_value kw) as [ | mx ]; cbn;
    try (split; [ discriminate | intros [_ [a [b [Ha [Hb _]]]]];
                                 discriminate ]).
  destruct (num_eqb mn mx) eqn:Heq; cbn.
  - split; [ discriminate | ].
    intros [_ [a [b [[= <-] [[= <-] [Hne _]]]]]]. congruence.
  - destruct (num_leb mn num_zero) eqn:Hmn; cbn.
    + split; [ | reflexivity ]. intros _. split; [ reflexivity | ].
      exists mn, mx. auto.
    + destruct (num_leb mx num_zero) eqn:Hmx; cbn.
      * split; [ | reflexivity ]. intros _. split; [ reflexivity | ].
        exists mn, mx. auto.
      * split; [ discriminate | ].
        intros [_ [a [b [[= <-] [[= <-] [_ [Hbad | Hbad]]]]]]]; congruence.
Qed.

(** Construction from two equal bounds: the bounds are cleared, a
    warning is printed, and the value is the keyword [value], the
    assignment of the common bound being overwritten. *)
Lemma init_min_max_same (kw : init_kwargs num) :
  min_max_same (kw_min_value kw) (kw_max_value kw) = true ->
  __init__ kw
  = Ok {| _name := kw_name kw;
          _printer := [Message "min_max_same" [kw_name kw] true];
          _max_value := PNone;
          _min_value := PNone;
          _value := kw_value kw;
          _log := kw_log kw;
          _latex :=
            match kw_latex kw with Some l => l | None => kw_name kw end;
          _derived_keys :=
            kw_derived_keys kw ++ [("reference_" ++ kw_name kw)%string];
          _reference_value := PNone;
          _clipped_warning := false |}.
Proof.
  unfold __init__. intros ->. cbn. destruct (kw_log kw); reflexivity.
Qed.

(** C3 (amended). The constructor raises, with [ValueError], exactly
    for a log parameter whose two bounds are present, differ from each
    other, and of which one is not positive; equal bounds are cleared
    before the validation, with a warning.  The other operations do not
    raise on the inputs of their contract: [process] when its input
    holds the name or a numeric ['fraction'], or when the parameter has
    no range; [value] and [fraction] on a number when the parameter has
    a range. *)
Theorem C3_only_log_validation_raises (kw : init_kwargs num) :
  (__init__ kw = Raise ValueError <->
   kw_log kw = true
   /\ exists mn mx,
        kw_min_value kw = PNum mn /\ kw_max_value kw = PNum mx
        /\ num_eqb mn mx = false
        /\ (num_leb mn num_zero = true \/ num_leb mx num_zero = true))
  /\ (forall e, __init__ kw = Raise e -> e = ValueError)
  /\ (min_max_same (kw_min_value kw) (kw_max_value kw) = true ->
      exists self,
        __init__ kw = Ok self
        /\ has_range self = false
        /\ _printer self = [Message "min_max_same" [kw_name kw] true])
  /\ (forall self kwargs,
        contains kwargs (_name self) = true
        \/ has_range self = false
        \/ (exists f, get kwargs "fraction" = Some (PNum f)) ->
        raises (process self kwargs) = false)
  /\ (forall self f,
        has_range self = true -> raises (value self (PNum f)) = false)
  /\ (forall self v clip,
        has_range self = true ->
        raises (fraction self (PNum v) clip) = false).
Proof.
  assert (Hexn : forall e, __init__ kw = Raise e -> e = ValueError).
  { unfold __init__. intros e.
    destruct (min_max_same (kw_min_value kw) (kw_max_value kw)),
      (kw_log kw), (kw_min_value kw) as [ | mn ],
      (kw_max_value kw) as [ | mx ]; cbn; try discriminate;
      destruct (num_leb mn num_zero || num_leb mx num_zero);
      congruence. }
  assert (Hvalue : forall self f,
             has_range self = true -> raises (value self (PNum f)) = false).
  { intros self f Hrange. apply has_range_bounds in Hrange.
    destruct Hrange as [mn [mx [Hmn Hmx]]].
    unfold value. rewrite Hmn, Hmx. reflexivity. }
  split; [ | split; [ exact Hexn | ] ].
  2: split; [ | split; [ | split; [ exact Hvalue | ] ] ].
  - rewrite <- init_raises_iff. split.
    + intros ->. reflexivity.
    + destruct (__init__ kw) as [p | e] eqn:Hinit; [ discriminate | ].
      intros _. rewrite (Hexn e eq_refl). reflexivity.
  - intros Hsame. eexists. split; [ exact (init_min_max_same kw Hsame) | ].
    split; reflexivity.
  - intros self kwargs Hcase. rewrite process_paths.
    destruct (contains kwargs (_name self)); [ reflexivity | ].
    destruct (has_range self) eqn:Hrange; [ | reflexivity ].
    destruct Hcase as [Hin | [Hno | [f Hf]]]; try discriminate.
    unfold getitem. rewrite Hf. cbn [bind].
    specialize (Hvalue self f Hrange).
    destruct (value self (PNum f)); [ reflexivity | discriminate Hvalue ].
  - intros self v clip Hrange. apply has_range_bounds in Hrange.
    destruct Hrange as [mn [mx [Hmn Hmx]]].
    unfold fraction. rewrite Hmn, Hmx.
    destruct clip; [ | reflexivity ].
    match goal with
    | |- raises (if ?c then _ else _) = _ => destruct c; reflexivity
    end.
Qed.

(** A new object has raised no clipping warning. *)
Lemma init_fresh (kw : init_kwargs num) self :
  __init__ kw = Ok self ->
  _clipped_warning self = false /\ clip_warnings self = 0%nat.
Proof.
  unfold __init__.
  destruct (min_max_same (kw_min_value kw) (kw_max_value kw)),
    (kw_log kw), (kw_min_value kw) as [ | mn ],
    (kw_max_value kw) as [ | mx ]; cbn;
    try (intros [= <-]; split; reflexivity);
    destruct (num_leb mn num_zero || num_leb mx num_zero);
    try discriminate; intros [= <-]; split; reflexivity.
Qed.

(** The effect of one call on the one-shot flag and on the number of
    clipping warnings. *)
Lemma after_effect self (c : call num) :
  _clipped_warning (after self c)
    = _clipped_warning self || clipping_changes self c
  /\ clip_warnings (after self c)
     = (clip_warnings self
        + if clipping_changes self c && negb (_clipped_warning self)
          then 1 else 0)%nat.
Proof.
  assert (Hsame : forall p : Param num,
             _clipped_warning p = _clipped_warning self ->
             _printer p = _printer self ->
             _clipped_warning p = _clipped_warning self || false
             /\ clip_warnings p = (clip_warnings self + 0)%nat).
  { intros p Hflag Hprint. unfold clip_warnings.
    rewrite Hflag, Hprint, orb_false_r, Nat.add_0_r. split; reflexivity. }
  destruct c as [v clip | f | kwargs | requests | v ]; cbn [after].
  - unfold fraction, clipping_changes.
    destruct v as [ | v ]; [ apply Hsame; reflexivity | ].
    destruct (_min_value self) as [ | mn ];
      [ destruct clip; apply Hsame; reflexivity | ].
    destruct (_max_value self) as [ | mx ];
      [ destruct clip; apply Hsame; reflexivity | ].
    destruct clip; [ | apply Hsame; reflexivity ].
    cbn zeta.
    match goal with
    | |- context [negb (num_eqb ?a ?b)] => destruct (num_eqb a b)
    end; cbn [negb andb]; [ apply Hsame; reflexivity | ].
    destruct (_clipped_warning self) eqn:Hflag; cbn [negb].
    + rewrite Hflag, Nat.add_0_r. split; reflexivity.
    + split; [ reflexivity | ].
      unfold clip_warnings, warn_clipped. cbn [_printer].
      rewrite filter_app, length_app. reflexivity.
  - apply Hsame; reflexivity.
  - apply Hsame; reflexivity.
  - unfold clipping_changes, receive_requests.
    destruct (keys requests); apply Hsame; reflexivity.
  - apply Hsame; reflexivity.
Qed.

(** The object after the first [S i] calls. *)
Lemma after_all_firstn_S self (calls : list (call num)) (i : nat)
  (c : call num) :
  nth_error calls i = Some c ->
  after_all self (firstn (S i) calls)
    = after (after_all self (firstn i calls)) c.
Proof.
  unfold after_all. revert self i.
  induction calls as [ | c0 calls IH ]; intros self i Hi.
  - destruct i; discriminate Hi.
  - destruct i as [ | i ].
    + cbn in Hi. injection Hi as ->. reflexivity.
    + cbn in Hi. cbn [firstn fold_left]. rewrite (IH _ _ Hi). reflexivity.
Qed.

(** The number of warnings of an object is bounded by its flag. *)
Lemma clip_warnings_bounded (calls : list (call num)) :
  forall self,
    (clip_warnings self <= if _clipped_warning self then 1 else 0)%nat ->
    (clip_warnings (after_all self calls)
       <= if _clipped_warning (after_all self calls) then 1 else 0)%nat.
Proof.
  unfold after_all.
  induction calls as [ | c calls IH ]; intros self Hinv; [ exact Hinv | ].
  cbn [fold_left]. apply IH.
  destruct (after_effect self c) as [-> ->].
  destruct (_clipped_warning self), (clipping_changes self c); cbn in *; lia.
Qed.

(** The flag is set exactly when an earlier call was clipped. *)
Lemma clipped_warning_iff (calls : list (call num)) self :
  _clipped_warning self = false ->
  forall i,
    (i <= List.length calls)%nat ->
    (_clipped_warning (after_all self (firstn i calls)) = false <->
     forall j c,
       (j < i)%nat -> nth_error calls j = Some c ->
       clipping_changes (after_all self (firstn j calls)) c = false).
Proof.
  intros Hfresh. induction i as [ | i IH ]; intros Hlen.
  - cbn. split; [ intros _ j c Hj; lia | intros _; exact Hfresh ].
  - destruct (nth_error calls i) as [ci | ] eqn:Hci;
      [ | apply nth_error_None in Hci; lia ].
    rewrite (after_all_firstn_S _ _ _ _ Hci).
    destruct (after_effect (after_all self (firstn i calls)) ci) as [-> _].
    rewrite orb_false_iff, IH by lia. split.
    + intros [Hbefore Hnow] j c Hj Hc.
      destruct (Nat.eq_dec j i) as [-> | Hne].
      * rewrite Hci in Hc. injection Hc as <-. exact Hnow.
      * apply Hbefore; [ lia | exact Hc ].
    + intros Hall. split.
      * intros j c Hj Hc. apply Hall; [ lia | exact Hc ].
      * apply Hall; [ lia | exact Hci ].
Qed.

(** C10 (amended). Over the life of an object, from its construction
    through any sequence of calls, at most one clipping warning is sent
    to the printer: a call sends it exactly when it is a [fraction]
    call with [clip=True] whose clipped fraction compares unequal to
    the unclipped one (the test [f != of] of the code, which a NaN
    fraction passes too) and no earlier call was one; every other call
    sends none. *)
Theorem C10_clip_warning_once (kw : init_kwargs num) self
  (calls : list (call num)) :
  __init__ kw = Ok self ->
  (clip_warnings (after_all self calls) <= 1)%nat
  /\ forall i c,
       nth_error calls i = Some c ->
       let before := after_all self (firstn i calls) in
       let first_clipped :=
         clipping_changes before c = true
         /\ forall j c',
              (j < i)%nat -> nth_error calls j = Some c' ->
              clipping_changes (after_all self (firstn j calls)) c' = false in
       (first_clipped ->
        clip_warnings (after before c) = S (clip_warnings before))
       /\ (~ first_clipped ->
           clip_warnings (after before c) = clip_warnings before).
Proof.
  intros Hinit. destruct (init_fresh _ _ Hinit) as [Hflag Hcount].
  split.
  - pose proof (clip_warnings_bounded calls self) as Hbound.
    rewrite Hflag, Hcount in Hbound. specialize (Hbound (Nat.le_refl 0)).
    destruct (_clipped_warning (after_all self calls)); lia.
  - intros i c Hc before first_clipped.
    assert (Hi : (i <= List.length calls)%nat).
    { apply Nat.lt_le_incl. apply nth_error_Some. rewrite Hc. discriminate. }
    pose proof (clipped_warning_iff calls self Hflag i Hi) as Hiff.
    fold before in Hiff.
    destruct (after_effect before c) as [_ ->].
    split.
    + intros [Hnow Hearlier]. apply Hiff in Hearlier.
      rewrite Hnow, Hearlier. cbn. lia.
    + intros Hnot.
      destruct (clipping_changes before c) eqn:Hnow; cbn [andb];
        [ | lia ].
      destruct (_clipped_warning before) eqn:Hbefore; cbn [negb]; [ lia | ].
      exfalso. apply Hnot. split; [ reflexivity | ].
      apply Hiff. reflexivity.
Qed.

End ParameterFacts.

Section ParameterRuns.
Import parameter run_parameter.
Local Open Scope float_scope.

Lemma init_linear : __init__ linear_kwargs = Ok linear_param.
Proof. reflexivity. Qed.

(** C1 fails on the code: constructed from [min_value=3.0,
    max_value=3.0] and no [value], the parameter has its bounds cleared
    but its value is [None], not 3.0, and [process] returns [None] for
    it. *)
Theorem C1_degenerate_range_value_is_None :
  exists self,
    __init__ degenerate_kwargs = Ok self
    /\ _min_value self = PNone
    /\ _max_value self = PNone
    /\ _value self = PNone
    /\ _printer self = [Message "min_max_same" ["x"%string] true]
    /\ process self [("fraction"%string, PNum 0.5%float)]
       = Ok [("x"%string, PNone)].
Proof.
  eexists. split; [ vm_compute; reflexivity | ].
  repeat split; vm_compute; reflexivity.
Qed.

(** C3, as stated, fails: a log parameter with the two bounds present
    and equal to -1.0 is constructed without an error, as a fixed
    parameter. *)
Lemma C3_log_equal_nonpositive_bounds_accepted :
  kw_log log_degenerate_kwargs = true
  /\ kw_min_value log_degenerate_kwargs = PNum (-1)%float
  /\ kw_max_value log_degenerate_kwargs = PNum (-1)%float
  /\ PrimFloat.leb (-1) 0 = true
  /\ exists self,
       __init__ log_degenerate_kwargs = Ok self
       /\ _min_value self = PNone /\ _max_value self = PNone.
Proof.
  repeat split.
  eexists. split; [ vm_compute; reflexivity | ].
  split; reflexivity.
Qed.

(** The amended C3 at [log=True, min_value=-1.0, max_value=5.0]: the
    constructor raises [ValueError]. *)
Lemma C3_log_negative_bound_witness :
  __init__ log_negative_kwargs = Raise ValueError.
Proof.
  apply (proj1 (C3_only_log_validation_raises log_negative_kwargs)).
  split; [ reflexivity | ].
  exists (-1)%float, 5%float. repeat split.
  left. reflexivity.
Defined.

(** C6 at a fixed parameter holding a reference value: two entries, the
    name first; and the empty mapping when the name is in the input. *)
Lemma C6_process_output_witness :
  process fixed_param [("fraction"%string, PNum (1 / 2))]
    = Ok [("x"%string, PNum 7); ("reference_x"%string, PNum 4)]
  /\ process fixed_param [("x"%string, PNum 1)] = Ok [].
Proof.
  destruct (C6_process_output fixed_param
              [("fraction"%string, PNum (1 / 2))])
    as [_ [Hfixed _]].
  destruct (C6_process_output fixed_param [("x"%string, PNum 1)])
    as [Hskip _].
  split; [ exact (Hfixed eq_refl eq_refl) | exact (Hskip eq_refl) ].
Defined.

(** C7 at two successive requests: the output holds the value 2 of the
    first entry of the second request. *)
Lemma C7_receive_requests_witness :
  process
    (receive_requests
       (receive_requests fixed_param [("a"%string, PNum 1)])
       [("b"%string, PNum 2); ("c"%string, PNum 3)])
    [("fraction"%string, PNum (1 / 2))]
  = Ok [("x"%string, PNum 7); ("reference_x"%string, PNum 2)].
Proof.
  destruct (C7_receive_requests_first_entry fixed_param
              [("a"%string, PNum 1)] "b" (PNum 2) [("c"%string, PNum 3)]
              [("fraction"%string, PNum (1 / 2))])
    as [_ [_ [_ [Hfixed _]]]].
  exact (Hfixed eq_refl eq_refl).
Defined.

End ParameterRuns.

Section BlackbodyFacts.
Import blackbody.
Local Open Scope float_scope.

Variables C_CONST FLUX_CONST X_CONST ANGSTROM_CGS : float.
Variable ne_exp : float -> float.

Local Abbreviation epoch :=
  (epoch C_CONST FLUX_CONST X_CONST ANGSTROM_CGS ne_exp).
Local Abbreviation for_loop :=
  (for_loop C_CONST FLUX_CONST X_CONST ANGSTROM_CGS ne_exp).
Local Abbreviation fresh_seds :=
  (fresh_seds C_CONST FLUX_CONST X_CONST ANGSTROM_CGS ne_exp).
Local Abbreviation planck := (planck FLUX_CONST X_CONST ne_exp).

Lemma index_nth_error (A : Type) (l : list A) (i : nat) (a : A) :
  nth_error l i = Some a -> index l i = Ok a.
Proof. unfold index; intros ->; reflexivity. Qed.

Lemma nan_to_num_isfinite (x : float) : isfinite (nan_to_num x) = true.
Proof.
  unfold nan_to_num.
  destruct (classify x) eqn:E;
    solve [ unfold isfinite; rewrite E; reflexivity | vm_compute; reflexivity ].
Qed.

(** Every iteration that completes appends exactly one spectrum. *)
Lemma epoch_appends (self : Blackbody) (zp1 : float) (st st1 : loop_state)
  (li : nat) (lum : float) :
  epoch self zp1 st li lum = Ok st1 ->
  exists sed, seds st1 = seds st ++ [sed].
Proof.
  unfold blackbody.epoch.
  destruct (index (_radius_phot self) li); [ | discriminate ].
  destruct (index (_temperature_phot self) li); [ | discriminate ].
  destruct (index (_band_indices self) li) as [bi | ]; [ | discriminate ].
  cbn [bind].
  destruct (lum =? 0).
  - destruct (bi >=? 0)%Z.
    + destruct (index (_sample_wavelengths self) (Z.to_nat bi));
        [ | discriminate ].
      cbn [bind]. intros [= <-]. eexists; reflexivity.
    + intros [= <-]. eexists; reflexivity.
  - match goal with
    | |- bind ?c _ = _ -> _ => destruct c; [ | discriminate ]
    end.
    cbn [bind].
    match goal with
    | |- bind ?c _ = _ -> _ => destruct c; [ | discriminate ]
    end.
    cbn [bind]. intros [= <-]. eexists; reflexivity.
Qed.

(** The loop only appends: one spectrum per item. *)
Lemma for_loop_extends (self : Blackbody) (zp1 : float)
  (items : list (nat * float)) :
  forall (st st' : loop_state),
    for_loop self zp1 st items = Ok st' ->
    exists more,
      seds st' = seds st ++ more /\ List.length more = List.length items.
Proof.
  induction items as [ | [li lum] items IH ]; intros st st' Hrun.
  - cbn in Hrun. injection Hrun as <-.
    exists []. rewrite app_nil_r. split; reflexivity.
  - cbn [blackbody.for_loop] in Hrun.
    destruct (epoch self zp1 st li lum) as [st1 | ] eqn:Hstep;
      [ | discriminate Hrun ].
    cbn [bind] in Hrun.
    destruct (epoch_appends _ _ _ _ _ _ Hstep) as [sed Hsed].
    destruct (IH _ _ Hrun) as [more [Hmore Hlen]].
    exists (sed :: more). split.
    + rewrite Hmore, Hsed, <- app_assoc. reflexivity.
    + cbn. rewrite Hlen. reflexivity.
Qed.

(** The spectrum at position [i] of the loop's result is the one the
    [i]-th iteration appends. *)
Lemma for_loop_nth (self : Blackbody) (zp1 : float)
  (items : list (nat * float)) :
  forall (st st' : loop_state) (i li : nat) (lum : float) (sed : pyseq),
    for_loop self zp1 st items = Ok st' ->
    nth_error items i = Some (li, lum) ->
    (forall st0 st1, epoch self zp1 st0 li lum = Ok st1 ->
                     seds st1 = seds st0 ++ [sed]) ->
    nth_error (seds st') (List.length (seds st) + i) = Some sed.
Proof.
  induction items as [ | [li0 lum0] items IH ];
    intros st st' i li lum sed Hrun Hi Hsed.
  - destruct i; discriminate Hi.
  - cbn [blackbody.for_loop] in Hrun.
    destruct (epoch self zp1 st li0 lum0) as [st1 | ] eqn:Hstep;
      [ | discriminate Hrun ].
    cbn [bind] in Hrun.
    destruct i as [ | i ].
    + cbn in Hi. injection Hi as -> ->.
      destruct (for_loop_extends _ _ _ _ _ Hrun) as [more [Hmore _]].
      rewrite Hmore, (Hsed _ _ Hstep), <- app_assoc, Nat.add_0_r.
      rewrite nth_error_app2; [ | lia ].
      rewrite Nat.sub_diag. reflexivity.
    + cbn in Hi.
      destruct (epoch_appends _ _ _ _ _ _ Hstep) as [sed0 Hsed0].
      specialize (IH st1 st' i li lum sed Hrun Hi Hsed).
      rewrite Hsed0, length_app in IH. cbn in IH.
      replace (List.length (seds st) + S i)%nat
        with (List.length (seds st) + 1 + i)%nat by lia.
      exact IH.
Qed.

Lemma combine_seq_nth_error (A : Type) (l : list A) :
  forall (k i : nat) (a : A),
    nth_error l i = Some a ->
    nth_error (combine (seq k (List.length l)) l) i = Some ((k + i)%nat, a).
Proof.
  induction l as [ | x l IH ]; intros k i a Hi.
  - destruct i; discriminate Hi.
  - destruct i as [ | i ]; cbn in *.
    + injection Hi as ->. rewrite Nat.add_0_r. reflexivity.
    + rewrite (IH (S k) i a Hi). f_equal. f_equal. lia.
Qed.

Lemma enumerate_nth_error (A : Type) (l : list A) (i : nat) (a : A) :
  nth_error l i = Some a -> nth_error (enumerate l) i = Some (i, a).
Proof. intros Hi. exact (combine_seq_nth_error A l 0 i a Hi). Qed.

(** The spectrum of epoch [li] among the fresh spectra of [process]. *)
Lemma fresh_seds_nth (self : Blackbody) (kwargs : process_kwargs)
  (st' : loop_state) (li : nat) (lum : float) (sed : pyseq) :
  fresh_seds self kwargs = Ok st' ->
  nth_error (luminosities kwargs) li = Some lum ->
  (forall st0 st1,
      epoch (store_inputs self kwargs) (1 + redshift kwargs) st0 li lum
        = Ok st1 ->
      seds st1 = seds st0 ++ [sed]) ->
  nth_error (seds st') li = Some sed.
Proof.
  unfold blackbody.fresh_seds. intros Hrun Hlum Hsed.
  apply enumerate_nth_error in Hlum.
  exact (for_loop_nth _ _ _ _ _ _ _ _ _ Hrun Hlum Hsed).
Qed.

Lemma geb0_true (bi : Z) : (0 <= bi)%Z -> (bi >=? 0)%Z = true.
Proof. intros Hbi. rewrite Z.geb_leb. apply Z.leb_le. exact Hbi. Qed.

Lemma geb0_false (bi : Z) : (bi < 0)%Z -> (bi >=? 0)%Z = false.
Proof. intros Hbi. rewrite Z.geb_leb. apply Z.leb_gt. exact Hbi. Qed.

Lemma map_const_repeat (A B : Type) (b : B) (l : list A) :
  map (fun _ => b) l = repeat b (List.length l).
Proof. induction l as [ | x l IH ]; cbn; [ | rewrite IH ]; reflexivity. Qed.

(** If some iteration raises from every loop state, the loop raises. *)
Lemma for_loop_raises (self : Blackbody) (zp1 : float)
  (items : list (nat * float)) :
  forall (st : loop_state) (i li : nat) (lum : float),
    nth_error items i = Some (li, lum) ->
    (forall st0, raises (epoch self zp1 st0 li lum) = true) ->
    raises (for_loop self zp1 st items) = true.
Proof.
  induction items as [ | [li0 lum0] items IH ]; intros st i li lum Hi Hbad.
  - destruct i; discriminate Hi.
  - cbn [blackbody.for_loop].
    destruct i as [ | i ]; cbn in Hi.
    + injection Hi as -> ->. specialize (Hbad st).
      destruct (epoch self zp1 st li lum); [ discriminate Hbad | reflexivity ].
    + destruct (epoch self zp1 st li0 lum0) as [st1 | ]; [ | reflexivity ].
      cbn [bind]. exact (IH st1 i li lum Hi Hbad).
Qed.

(** A frequency-indexed epoch with nonzero luminosity stops [process]:
    [rest_wavs] is a Python list there, and [rest_wavs**2] is a
    [TypeError]. *)
Lemma frequency_epoch_raises (self : Blackbody) (kwargs : process_kwargs)
  (li : nat) (lum radius_phot temperature_phot nu : float) (bi : Z) :
  nth_error (luminosities kwargs) li = Some lum ->
  nth_error (radiusphot kwargs) li = Some radius_phot ->
  nth_error (temperaturephot kwargs) li = Some temperature_phot ->
  nth_error (all_band_indices kwargs) li = Some bi ->
  nth_error (all_frequencies kwargs) li = Some (PNum nu) ->
  (bi < 0)%Z ->
  (lum =? 0) = false ->
  (forall st,
      epoch (store_inputs self kwargs) (1 + redshift kwargs) st li lum
        = Raise TypeError)
  /\ raises (fresh_seds self kwargs) = true.
Proof.
  intros Hlum HR HT Hbi Hnu Hneg Hnz.
  assert (Hstep : forall st,
             epoch (store_inputs self kwargs) (1 + redshift kwargs) st li lum
               = Raise TypeError).
  { intros st. unfold blackbody.epoch. cbn [store_inputs _radius_phot
      _temperature_phot _band_indices _frequencies _sample_wavelengths].
    rewrite (index_nth_error _ _ _ _ HR), (index_nth_error _ _ _ _ HT),
      (index_nth_error _ _ _ _ Hbi), (index_nth_error _ _ _ _ Hnu).
    cbn [bind]. rewrite Hnz.
    rewrite (geb0_false bi) by lia.
    rewrite (proj2 (Z.ltb_lt bi 0)) by lia.
    reflexivity. }
  split; [ exact Hstep | ].
  unfold blackbody.fresh_seds.
  apply (for_loop_raises _ _ _ _ li li lum).
  - apply enumerate_nth_error. exact Hlum.
  - intros st0. rewrite Hstep. reflexivity.
Qed.

(** An epoch of the kind [epoch_completes] describes is processed
    without an exception. *)
Lemma epoch_completes_ok (self : Blackbody) (kwargs : process_kwargs)
  (li : nat) (lum : float) :
  epoch_completes self kwargs li lum = true ->
  forall st, exists st1,
    epoch (store_inputs self kwargs) (1 + redshift kwargs) st li lum = Ok st1.
Proof.
  unfold epoch_completes, blackbody.epoch, index.
  cbn [store_inputs _radius_phot _temperature_phot _band_indices
         _frequencies _sample_wavelengths].
  destruct (nth_error (radiusphot kwargs) li); [ | discriminate ].
  destruct (nth_error (temperaturephot kwargs) li); [ | discriminate ].
  destruct (nth_error (all_band_indices kwargs) li) as [bi | ];
    [ | discriminate ].
  cbn [bind]. destruct (bi >=? 0)%Z eqn:Hbi.
  - destruct (nth_error (_sample_wavelengths self) (Z.to_nat bi));
      [ | discriminate ].
    intros _ st. cbn [bind].
    destruct (lum =? 0); [ eexists; reflexivity | ].
    rewrite Z.geb_leb in Hbi. apply Z.leb_le in Hbi.
    rewrite (proj2 (Z.ltb_ge bi 0)) by lia. eexists; reflexivity.
  - intros -> st. eexists; reflexivity.
Qed.

(** The loop completes when each of its iterations does. *)
Lemma for_loop_completes (self : Blackbody) (zp1 : float)
  (items : list (nat * float)) :
  (forall item, In item items ->
     forall st, exists st1, epoch self zp1 st (fst item) (snd item) = Ok st1) ->
  forall st, exists st', for_loop self zp1 st items = Ok st'.
Proof.
  induction items as [ | [li lum] items IH ]; intros Hall st.
  - eexists; reflexivity.
  - cbn [blackbody.for_loop].
    destruct (Hall (li, lum) (or_introl eq_refl) st) as [st1 Hstep].
    cbn [fst snd] in Hstep. rewrite Hstep. cbn [bind].
    apply IH. intros item Hin. apply Hall. right. exact Hin.
Qed.

Lemma fresh_seds_completes (self : Blackbody) (kwargs : process_kwargs) :
  all_complete self kwargs = true ->
  exists st', fresh_seds self kwargs = Ok st'.
Proof.
  unfold all_complete, blackbody.fresh_seds. intros Hall.
  apply for_loop_completes. intros item Hin.
  apply epoch_completes_ok.
  exact (proj1 (forallb_forall _ _) Hall item Hin).
Qed.

(** C8. For an epoch whose luminosity is exactly zero, [process] appends
    an all-zero spectrum without calling the expression evaluator: an
    array of zeros as long as the band's wavelength grid when the band
    index is non-negative, the list [[0.0]] when it is negative. *)
Theorem C8_zero_luminosity_epoch (self : Blackbody) (kwargs : process_kwargs)
  (li : nat) (lum radius_phot temperature_phot : float) (bi : Z) :
  nth_error (luminosities kwargs) li = Some lum ->
  nth_error (radiusphot kwargs) li = Some radius_phot ->
  nth_error (temperaturephot kwargs) li = Some temperature_phot ->
  nth_error (all_band_indices kwargs) li = Some bi ->
  (lum =? 0) = true ->
  let self' := store_inputs self kwargs in
  let zp1 := 1 + redshift kwargs in
  ((0 <= bi)%Z ->
   forall grid,
     nth_error (_sample_wavelengths self) (Z.to_nat bi) = Some grid ->
     let zeros := NdArray (repeat 0 (List.length grid)) in
     (forall st,
         epoch self' zp1 st li lum
           = Ok {| seds := seds st ++ [zeros];
                   evaled := evaled st;
                   ne_calls := ne_calls st |})
     /\ (forall st', fresh_seds self kwargs = Ok st' ->
                     nth_error (seds st') li = Some zeros)
     /\ (all_complete self kwargs = true ->
         exists st', fresh_seds self kwargs = Ok st'
                     /\ nth_error (seds st') li = Some zeros))
  /\ ((bi < 0)%Z ->
      (forall st,
          epoch self' zp1 st li lum
            = Ok {| seds := seds st ++ [PyList [0]];
                    evaled := evaled st;
                    ne_calls := ne_calls st |})
      /\ (forall st', fresh_seds self kwargs = Ok st' ->
                      nth_error (seds st') li = Some (PyList [0]))
      /\ (all_complete self kwargs = true ->
          exists st', fresh_seds self kwargs = Ok st'
                      /\ nth_error (seds st') li = Some (PyList [0]))).
Proof.
  intros Hlum HR HT Hbi Hz self' zp1.
  assert (Hhead : forall st,
             epoch self' zp1 st li lum
               = if (bi >=? 0)%Z then
                   (grid <- index (_sample_wavelengths self) (Z.to_nat bi) ;;
                    Ok {| seds := seds st ++ [zeros_like grid];
                          evaled := evaled st;
                          ne_calls := ne_calls st |})%py
                 else
                   Ok {| seds := seds st ++ [PyList [0]];
                         evaled := evaled st;
                         ne_calls := ne_calls st |}).
  { intros st. unfold blackbody.epoch. subst self'.
    cbn [store_inputs _radius_phot _temperature_phot _band_indices
           _sample_wavelengths].
    rewrite (index_nth_error _ _ _ _ HR), (index_nth_error _ _ _ _ HT),
      (index_nth_error _ _ _ _ Hbi). cbn [bind]. rewrite Hz. reflexivity. }
  split.
  - intros Hpos grid Hgrid zeros.
    assert (Hstep : forall st,
               epoch self' zp1 st li lum
                 = Ok {| seds := seds st ++ [zeros];
                         evaled := evaled st;
                         ne_calls := ne_calls st |}).
    { intros st. rewrite (Hhead st), (geb0_true bi) by lia.
      rewrite (index_nth_error _ _ _ _ Hgrid). cbn [bind].
      unfold zeros_like. rewrite map_const_repeat. reflexivity. }
    assert (Hnth : forall st', fresh_seds self kwargs = Ok st' ->
                               nth_error (seds st') li = Some zeros).
    { intros st' Hrun. apply (fresh_seds_nth self kwargs st' li lum); auto.
      intros st0 st1. fold self' zp1. rewrite Hstep. intros [= <-].
      reflexivity. }
    split; [ exact Hstep | split; [ exact Hnth | ] ].
    intros Hall. destruct (fresh_seds_completes _ _ Hall) as [st' Hrun].
    exists st'. split; [ exact Hrun | exact (Hnth st' Hrun) ].
  - intros Hneg.
    assert (Hstep : forall st,
               epoch self' zp1 st li lum
                 = Ok {| seds := seds st ++ [PyList [0]];
                         evaled := evaled st;
                         ne_calls := ne_calls st |}).
    { intros st. rewrite (Hhead st), (geb0_false bi) by lia.
      reflexivity. }
    assert (Hnth : forall st', fresh_seds self kwargs = Ok st' ->
                               nth_error (seds st') li = Some (PyList [0])).
    { intros st' Hrun. apply (fresh_seds_nth self kwargs st' li lum); auto.
      intros st0 st1. fold self' zp1. rewrite Hstep. intros [= <-].
      reflexivity. }
    split; [ exact Hstep | split; [ exact Hnth | ] ].
    intros Hall. destruct (fresh_seds_completes _ _ Hall) as [st' Hrun].
    exists st'. split; [ exact Hrun | exact (Hnth st' Hrun) ].
Qed.

(** C2 (amended). For a band-indexed epoch with nonzero luminosity the
    spectrum [process] appends is the Planck expression evaluated on the
    de-redshifted grid and passed through [np.nan_to_num]: a NaN becomes
    0, +Inf the largest finite double, -Inf the most negative finite
    double, and every other value is kept; every element of the spectrum
    is finite. *)
Theorem C2_band_epoch_nan_to_num (self : Blackbody) (kwargs : process_kwargs)
  (li : nat) (lum radius_phot temperature_phot : float) (bi : Z)
  (grid : list float) :
  nth_error (luminosities kwargs) li = Some lum ->
  nth_error (radiusphot kwargs) li = Some radius_phot ->
  nth_error (temperaturephot kwargs) li = Some temperature_phot ->
  nth_error (all_band_indices kwargs) li = Some bi ->
  (0 <= bi)%Z ->
  nth_error (_sample_wavelengths self) (Z.to_nat bi) = Some grid ->
  (lum =? 0) = false ->
  let zp1 := 1 + redshift kwargs in
  let raw :=
    map (planck radius_phot temperature_phot)
        (map (fun w => w * ANGSTROM_CGS / zp1) grid) in
  (forall st,
      epoch (store_inputs self kwargs) zp1 st li lum
        = Ok {| seds := seds st ++ [NdArray (map nan_to_num raw)];
                evaled := true;
                ne_calls :=
                  ne_calls st
                    ++ [if evaled st then ReEvaluate else Evaluate] |})
  /\ (forall st', fresh_seds self kwargs = Ok st' ->
                  nth_error (seds st') li
                    = Some (NdArray (map nan_to_num raw)))
  /\ (all_complete self kwargs = true ->
      exists st', fresh_seds self kwargs = Ok st'
                  /\ nth_error (seds st') li
                     = Some (NdArray (map nan_to_num raw)))
  /\ Forall (fun y => isfinite y = true) (map nan_to_num raw)
  /\ (forall x,
        In x raw ->
        match classify x with
        | NaN => nan_to_num x = 0
        | PInf => nan_to_num x = DBL_MAX
        | NInf => nan_to_num x = - DBL_MAX
        | _ => nan_to_num x = x
        end).
Proof.
  intros Hlum HR HT Hbi Hpos Hgrid Hnz zp1 raw.
  assert (Hstep : forall st,
             epoch (store_inputs self kwargs) zp1 st li lum
               = Ok {| seds := seds st ++ [NdArray (map nan_to_num raw)];
                       evaled := true;
                       ne_calls :=
                         ne_calls st
                           ++ [if evaled st then ReEvaluate else Evaluate] |}).
  { intros st. unfold blackbody.epoch. cbn [store_inputs _radius_phot
      _temperature_phot _band_indices _frequencies _sample_wavelengths].
    rewrite (index_nth_error _ _ _ _ HR), (index_nth_error _ _ _ _ HT),
      (index_nth_error _ _ _ _ Hbi). cbn [bind]. rewrite Hnz.
    rewrite (geb0_true bi) by lia.
    rewrite (proj2 (Z.ltb_ge bi 0)) by lia.
    rewrite (index_nth_error _ _ _ _ Hgrid). reflexivity. }
  assert (Hnth : forall st', fresh_seds self kwargs = Ok st' ->
                             nth_error (seds st') li
                               = Some (NdArray (map nan_to_num raw))).
  { intros st' Hrun. apply (fresh_seds_nth self kwargs st' li lum); auto.
    intros st0 st1. fold zp1. rewrite Hstep. intros [= <-]. reflexivity. }
  split; [ exact Hstep | split; [ exact Hnth | split; [ | split ] ] ].
  - intros Hall. destruct (fresh_seds_completes _ _ Hall) as [st' Hrun].
    exists st'. split; [ exact Hrun | exact (Hnth st' Hrun) ].
  - apply Forall_forall. intros y Hy. apply in_map_iff in Hy.
    destruct Hy as [x [<- _]]. apply nan_to_num_isfinite.
  - intros x _. unfold nan_to_num. destruct (classify x); reflexivity.
Qed.

End BlackbodyFacts.

Section BlackbodyRuns.
Import blackbody.
Local Open Scope float_scope.

Local Abbreviation fresh_seds :=
  (fresh_seds run.C_CONST run.FLUX_CONST run.X_CONST run.ANGSTROM_CGS
     libm.exp_double).

(** C2, as stated, fails: with a photospheric radius of 1e200 cm the
    Planck expression evaluates to +Inf at every wavelength of the band,
    and the spectrum of the epoch holds the largest finite double there,
    not 0. *)
Lemma C2_inf_not_zeroed :
  map (planck run.FLUX_CONST run.X_CONST libm.exp_double 1e200 6000)
      (map (fun w => w * run.ANGSTROM_CGS / (1 + 0)) [4000; 5000; 6000])
    = [infinity; infinity; infinity]
  /\ (exists st,
        fresh_seds run.one_band run.huge_radius = Ok st
        /\ seds st = [NdArray [DBL_MAX; DBL_MAX; DBL_MAX]])
  /\ (DBL_MAX =? 0) = false.
Proof.
  split; [ vm_compute; reflexivity | split ].
  - eexists; split; vm_compute; reflexivity.
  - vm_compute; reflexivity.
Qed.

(** The amended C2 at the epoch [run.band_epoch]: the loop completes and
    the three fluxes of the spectrum are finite. *)
Lemma C2_band_epoch_witness :
  exists st sed,
    fresh_seds run.one_band run.band_epoch = Ok st
    /\ nth_error (seds st) 0 = Some (NdArray sed)
    /\ Forall (fun y => isfinite y = true) sed.
Proof.
  destruct (C2_band_epoch_nan_to_num run.C_CONST run.FLUX_CONST run.X_CONST
              run.ANGSTROM_CGS libm.exp_double run.one_band run.band_epoch
              0 1e43 1e15 6000 0 [4000; 5000; 6000]
              eq_refl eq_refl eq_refl eq_refl (Z.le_refl 0) eq_refl eq_refl)
    as [_ [_ [Hrun [Hfin _]]]].
  destruct (Hrun eq_refl) as [st [Hst Hnth]].
  exists st. eexists. split; [ exact Hst | ].
  split; [ exact Hnth | exact Hfin ].
Defined.

(** C8 at the two epochs of [run.dark_epochs]: three zeros for the
    band-indexed epoch, [[0.0]] for the frequency-indexed one. *)
Lemma C8_zero_luminosity_witness :
  exists st,
    fresh_seds run.one_band run.dark_epochs = Ok st
    /\ nth_error (seds st) 0 = Some (NdArray [0; 0; 0])
    /\ nth_error (seds st) 1 = Some (PyList [0])
    /\ ne_calls st = [].
Proof.
  destruct (C8_zero_luminosity_epoch run.C_CONST run.FLUX_CONST
              run.X_CONST run.ANGSTROM_CGS libm.exp_double run.one_band
              run.dark_epochs 0 0 1e15 6000 0
              eq_refl eq_refl eq_refl eq_refl eq_refl) as [Hband _].
  destruct (Hband (Z.le_refl 0) [4000; 5000; 6000] eq_refl)
    as [_ [_ Hrun]].
  destruct (Hrun eq_refl) as [st [Hst Hnth0]].
  destruct (C8_zero_luminosity_epoch run.C_CONST run.FLUX_CONST
              run.X_CONST run.ANGSTROM_CGS libm.exp_double run.one_band
              run.dark_epochs 1 0 1e15 6000 (-1)
              eq_refl eq_refl eq_refl eq_refl eq_refl) as [_ Hfreq].
  destruct (Hfreq eq_refl) as [_ [Hnth1 _]].
  exists st. split; [ exact Hst | ].
  split; [ exact Hnth0 | split; [ exact (Hnth1 st Hst) | ] ].
  assert (Hval : fresh_seds run.one_band run.dark_epochs
                 = Ok {| seds := [NdArray [0; 0; 0]; PyList [0]];
                         evaled := false;
                         ne_calls := [] |})
    by (vm_compute; reflexivity).
  rewrite Hval in Hst. injection Hst as <-. reflexivity.
Defined.

(** C9 fails on the code: a frequency-indexed epoch with nonzero
    luminosity does not produce a rescaled flux; its iteration raises
    [TypeError] at [rest_wavs**2], and so does [process]. *)
Theorem C9_frequency_epoch_raises_TypeError :
  (forall st,
      epoch run.C_CONST run.FLUX_CONST run.X_CONST run.ANGSTROM_CGS
        libm.exp_double (store_inputs run.one_band run.radio_epoch)
        (1 + redshift run.radio_epoch) st 0 1e43
      = Raise TypeError)
  /\ fresh_seds run.one_band run.radio_epoch = Raise TypeError
  /\ (forall add_to_existing_seds,
        process run.C_CONST run.FLUX_CONST run.X_CONST run.ANGSTROM_CGS
          libm.exp_double add_to_existing_seds run.one_band run.radio_epoch
        = Raise TypeError).
Proof.
  split; [ | split; [ | intros merge ]; vm_compute; reflexivity ].
  apply (frequency_epoch_raises run.C_CONST run.FLUX_CONST run.X_CONST
           run.ANGSTROM_CGS libm.exp_double run.one_band run.radio_epoch
           0 1e43 1e15 6000 1e9 (-1));
    solve [ reflexivity | lia ].
Qed.

End BlackbodyRuns.

(* ------------------------------------------------------------------ *)
(** ** Further properties of the parameter class *)

Section ParameterLifetime.
Import parameter.
Context {num : Type} `{Number num}.

Implicit Types (self : Param num) (kwargs requests : dict (pyval num)).

(** What [fraction] returns on a parameter with a range: the object is
    either left as it is or marked by [warn_clipped]. *)
Lemma fraction_object self (v : pyval num) (clip : bool) (f : num)
  (self' : Param num) :
  fraction self v clip = Ok (f, self') ->
  self' = self \/ (self' = warn_clipped self /\ clip = true
                   /\ _clipped_warning self = false).
Proof.
  unfold fraction.
  destruct v as [ | x ]; [ discriminate | ].
  destruct (_min_value self) as [ | mn ]; [ discriminate | ].
  destruct (_max_value self) as [ | mx ]; [ discriminate | ].
  destruct clip; [ | intros [= _ <-]; left; reflexivity ].
  cbn zeta.
  match goal with
  | |- (if ?b then _ else _) = _ -> _ => destruct b eqn:Hb
  end; intros [= _ <-]; [ right | left; reflexivity ].
  apply andb_true_iff in Hb. destruct Hb as [_ Hflag].
  apply negb_true_iff in Hflag. auto.
Qed.

(** The attributes a call can change: the bounds and the value
    ([fix_value]), the reference value ([receive_requests]), the flag
    and the printer ([fraction]).  The others are those of [self]. *)
Lemma after_identity self (c : call num) :
  _name (after self c) = _name self
  /\ _log (after self c) = _log self
  /\ _latex (after self c) = _latex self
  /\ _derived_keys (after self c) = _derived_keys self.
Proof.
  destruct c as [v clip | f | kwargs | requests | v ]; cbn [after];
    try (repeat split; reflexivity).
  - destruct (fraction self v clip) as [[f self'] | e] eqn:Hcall;
      [ | repeat split; reflexivity ].
    destruct (fraction_object _ _ _ _ _ Hcall) as [-> | [-> _]];
      repeat split; reflexivity.
  - unfold receive_requests. destruct (keys requests);
      repeat split; reflexivity.
Qed.

Lemma after_all_identity (calls : list (call num)) :
  forall self,
    _name (after_all self calls) = _name self
    /\ _log (after_all self calls) = _log self
    /\ _latex (after_all self calls) = _latex self
    /\ _derived_keys (after_all self calls) = _derived_keys self.
Proof.
  unfold after_all.
  induction calls as [ | c calls IH ]; intros self; cbn [fold_left].
  - repeat split; reflexivity.
  - destruct (IH (after self c)) as [-> [-> [-> ->]]].
    apply after_identity.
Qed.

(** The attributes of a new object. *)
Lemma init_attributes (kw : init_kwargs num) self :
  __init__ kw = Ok self ->
  _name self = kw_name kw
  /\ _log self = kw_log kw
  /\ _latex self
     = match kw_latex kw with Some l => l | None => kw_name kw end
  /\ _derived_keys self
     = kw_derived_keys kw ++ [("reference_" ++ kw_name kw)%string]
  /\ _value self = kw_value kw
  /\ _reference_value self = PNone
  /\ _printer self
     = (if min_max_same (kw_min_value kw) (kw_max_value kw)
        then [Message "min_max_same" [kw_name kw] true] else []).
Proof.
  unfold __init__.
  destruct (min_max_same (kw_min_value kw) (kw_max_value kw)),
    (kw_log kw), (kw_min_value kw) as [ | mn ],
    (kw_max_value kw) as [ | mx ]; cbn;
    try (intros [= <-]; repeat split; reflexivity);
    destruct (num_leb mn num_zero || num_leb mx num_zero);
    try discriminate; intros [= <-]; repeat split; reflexivity.
Qed.

(** X1. The name, the log flag, the LaTeX label and the derived keys of
    a parameter are fixed at construction: after any sequence of calls
    they are the ones the constructor computed from its keywords, the
    label defaulting to the name, and the derived keys are the supplied
    ones followed by [reference_<name>]. *)
Theorem X1_identity_fixed_at_construction (kw : init_kwargs num) self
  (calls : list (call num)) :
  __init__ kw = Ok self ->
  let final := after_all self calls in
  _name final = kw_name kw
  /\ is_log final = kw_log kw
  /\ latex final
     = match kw_latex kw with Some l => l | None => kw_name kw end
  /\ get_derived_keys final
     = kw_derived_keys kw ++ [("reference_" ++ _name final)%string]
  /\ In ("reference_" ++ _name final)%string (get_derived_keys final).
Proof.
  intros Hinit final.
  destruct (init_attributes _ _ Hinit) as [Hname [Hlog [Hlatex [Hkeys _]]]].
  destruct (after_all_identity calls self) as [Hn [Hl [Hx Hk]]].
  fold final in Hn, Hl, Hx, Hk.
  unfold is_log, latex, get_derived_keys.
  rewrite Hn, Hl, Hx, Hk, Hname, Hlog, Hlatex, Hkeys.
  repeat split. apply in_or_app. right. left. reflexivity.
Qed.

(** What one call appends to the printer. *)
Lemma after_printer self (c : call num) :
  _printer (after self c)
  = _printer self
      ++ (if clipping_changes self c && negb (_clipped_warning self)
          then [Message "parameter_clipped" [_name self] true] else []).
Proof.
  assert (Hsame : forall p : Param num,
             _printer p = _printer self ->
             _printer p = _printer self ++ []).
  { intros p ->. rewrite app_nil_r. reflexivity. }
  destruct c as [v clip | f | kwargs | requests | v ]; cbn [after];
    try (cbn [clipping_changes andb]; apply Hsame; reflexivity).
  - unfold fraction, clipping_changes.
    destruct v as [ | v ]; [ apply Hsame; reflexivity | ].
    destruct (_min_value self) as [ | mn ];
      [ destruct clip; apply Hsame; reflexivity | ].
    destruct (_max_value self) as [ | mx ];
      [ destruct clip; apply Hsame; reflexivity | ].
    destruct clip; [ | apply Hsame; reflexivity ].
    cbn zeta.
    match goal with
    | |- context [negb (num_eqb ?a ?b)] => destruct (num_eqb a b)
    end; cbn [negb andb]; [ apply Hsame; reflexivity | ].
    destruct (_clipped_warning self); cbn [negb];
      [ apply Hsame; reflexivity | reflexivity ].
  - unfold receive_requests.
    destruct (keys requests); apply Hsame; reflexivity.
Qed.

(** Once set, the one-shot flag stays set. *)
Lemma clipped_warning_kept (calls : list (call num)) :
  forall self,
    _clipped_warning self = true ->
    _clipped_warning (after_all self calls) = true.
Proof.
  unfold after_all.
  induction calls as [ | c calls IH ]; intros self Hset; cbn [fold_left].
  - exact Hset.
  - apply IH. destruct (after_effect self c) as [-> _].
    rewrite Hset. reflexivity.
Qed.

(** X2. The printer of a parameter only grows, and all a sequence of
    calls can add to it is one [parameter_clipped] warning carrying the
    parameter's name, and none at all once the one-shot flag is set. *)
Theorem X2_printer_append_only (calls : list (call num)) :
  forall self,
  exists more,
    _printer (after_all self calls) = _printer self ++ more
    /\ (more = []
        \/ (more = [Message "parameter_clipped" [_name self] true]
            /\ _clipped_warning self = false
            /\ _clipped_warning (after_all self calls) = true)).
Proof.
  unfold after_all.
  induction calls as [ | c calls IH ]; intros self; cbn [fold_left].
  - exists []. rewrite app_nil_r. auto.
  - destruct (IH (after self c)) as [more [Hmore Hcase]].
    rewrite Hmore, after_printer.
    destruct (after_effect self c) as [Hflag _].
    destruct (after_identity self c) as [Hname _].
    destruct (clipping_changes self c && negb (_clipped_warning self))
      eqn:Hnow.
    + apply andb_true_iff in Hnow. destruct Hnow as [Hchg Hold].
      apply negb_true_iff in Hold.
      destruct Hcase as [-> | [_ [Hbad _]]].
      * eexists. split; [ rewrite app_nil_r; reflexivity | ].
        right. split; [ reflexivity | split; [ exact Hold | ] ].
        apply (clipped_warning_kept calls (after self c)).
        rewrite Hflag, Hchg. apply orb_true_r.
      * rewrite Hflag, Hchg, orb_true_r in Hbad. discriminate Hbad.
    + rewrite app_nil_r. exists more. split; [ reflexivity | ].
      destruct Hcase as [-> | [-> [Hold Hnew]]]; [ left; reflexivity | ].
      right. rewrite Hname. split; [ reflexivity | split; [ | exact Hnew ] ].
      rewrite Hflag in Hold. apply orb_false_iff in Hold. apply Hold.
Qed.

(** X3. [fix_value(v)] turns any parameter into a fixed one: it has no
    range, [value] and [fraction] raise [TypeError] on every argument,
    and [process] returns [v] for the name, whatever ['fraction'] its
    input holds, with the reference entry the parameter had. *)
Theorem X3_fix_value_fixes self (v : pyval num) kwargs :
  let fixed := fix_value self v in
  has_range fixed = false
  /\ (forall f, value fixed f = Raise TypeError)
  /\ (forall x clip, fraction fixed x clip = Raise TypeError)
  /\ (contains kwargs (_name self) = true -> process fixed kwargs = Ok [])
  /\ (contains kwargs (_name self) = false ->
      process fixed kwargs = Ok ((_name self, v) :: reference_entry self)).
Proof.
  intros fixed. split; [ reflexivity | ].
  split; [ intros [ | f ]; reflexivity | ].
  split; [ intros [ | x ] clip; reflexivity | ].
  split; intros Hin; rewrite process_paths; cbn [fixed fix_value _name];
    rewrite Hin; reflexivity.
Qed.

(** On a number and a parameter with a range, [fraction] returns. *)
Lemma fraction_returns self (x : num) (clip : bool) :
  has_range self = true ->
  exists f self', fraction self (PNum x) clip = Ok (f, self').
Proof.
  intros Hrange. apply has_range_bounds in Hrange.
  destruct Hrange as [mn [mx [Hmn Hmx]]].
  unfold fraction. rewrite Hmn, Hmx.
  destruct clip; [ | eexists; eexists; reflexivity ].
  cbn zeta.
  match goal with
  | |- exists _ _, (if ?b then _ else _) = _ =>
      destruct b; eexists; eexists; reflexivity
  end.
Qed.

(** On a number and a parameter with a range, [value] returns. *)
Lemma value_returns self (f : num) :
  has_range self = true -> exists v, value self (PNum f) = Ok v.
Proof.
  intros Hrange. apply has_range_bounds in Hrange.
  destruct Hrange as [mn [mx [Hmn Hmx]]].
  unfold value. rewrite Hmn, Hmx. eexists; reflexivity.
Qed.

(** Without a number or without a range, both raise [TypeError]. *)
Lemma value_fraction_raise self (x : pyval num) (clip : bool) :
  x = PNone \/ has_range self = false ->
  value self x = Raise TypeError
  /\ fraction self x clip = Raise TypeError.
Proof.
  unfold value, fraction, has_range.
  destruct x as [ | x ], (_min_value self) as [ | mn ],
    (_max_value self) as [ | mx ]; cbn [is_none negb andb];
    try (intros _; split; reflexivity).
  intros [Hx | Hx]; discriminate Hx.
Qed.

(** X4. [value] and [fraction] raise exactly when their argument is
    [None] or the parameter has no range, and what they raise is
    [TypeError]. *)
Theorem X4_value_fraction_TypeError self (x : pyval num) (clip : bool) :
  (raises (value self x) = true <-> x = PNone \/ has_range self = false)
  /\ (raises (fraction self x clip) = true
      <-> x = PNone \/ has_range self = false)
  /\ (forall e, value self x = Raise e -> e = TypeError)
  /\ (forall e, fraction self x clip = Raise e -> e = TypeError).
Proof.
  destruct x as [ | x ].
  - destruct (value_fraction_raise self PNone clip (or_introl eq_refl))
      as [-> ->].
    repeat split; solve [ auto | intros; congruence ].
  - destruct (has_range self) eqn:Hrange.
    + destruct (value_returns self x Hrange) as [v ->].
      destruct (fraction_returns self x clip Hrange) as [f [self' ->]].
      repeat split; try discriminate; intros [Hx | Hx]; discriminate Hx.
    + destruct (value_fraction_raise self (PNum x) clip (or_intror Hrange))
        as [-> ->].
      repeat split; solve [ auto | intros; congruence ].
Qed.

(** X5. On a parameter with a range whose name is not in the input,
    [process] raises [KeyError] when the input has no ['fraction'] and
    [TypeError] when its ['fraction'] is [None]; it raises in no other
    case. *)
Theorem X5_process_fraction_errors self kwargs :
  contains kwargs (_name self) = false ->
  has_range self = true ->
  (get kwargs "fraction" = None -> process self kwargs = Raise KeyError)
  /\ (get kwargs "fraction" = Some PNone ->
      process self kwargs = Raise TypeError)
  /\ (raises (process self kwargs) = true
      <-> get kwargs "fraction" = None
          \/ get kwargs "fraction" = Some PNone).
Proof.
  intros Hin Hrange. rewrite process_paths, Hin, Hrange. unfold getitem.
  destruct (get kwargs "fraction") as [[ | f] | ] eqn:Hf; cbn [bind].
  - split; [ discriminate | ]. split; [ reflexivity | ].
    split; [ auto | reflexivity ].
  - apply has_range_bounds in Hrange.
    destruct Hrange as [mn [mx [Hmn Hmx]]].
    unfold value. rewrite Hmn, Hmx. cbn [bind raises].
    split; [ discriminate | ]. split; [ discriminate | ].
    split; [ discriminate | intros [Hx | Hx]; discriminate Hx ].
  - split; [ reflexivity | ]. split; [ discriminate | ].
    split; [ auto | reflexivity ].
Qed.

(** What one call leaves of the bounds, the value and the reference. *)
Lemma after_frame self (c : call num) :
  ((forall v, c <> CallFixValue v) ->
   _min_value (after self c) = _min_value self
   /\ _max_value (after self c) = _max_value self
   /\ _value (after self c) = _value self)
  /\ ((forall r, c <> CallReceiveRequests r) ->
      _reference_value (after self c) = _reference_value self).
Proof.
  destruct c as [v clip | f | kwargs | requests | v ]; cbn [after];
    try (split; intros _; repeat split; reflexivity).
  - destruct (fraction self v clip) as [[f self'] | e] eqn:Hcall;
      [ | split; intros _; repeat split; reflexivity ].
    destruct (fraction_object _ _ _ _ _ Hcall) as [-> | [-> _]];
      split; intros _; repeat split; reflexivity.
  - split; [ intros _ | intros Hne; destruct (Hne requests eq_refl) ].
    unfold receive_requests. destruct (keys requests);
      repeat split; reflexivity.
  - split; [ intros Hne; destruct (Hne v eq_refl) | intros _; reflexivity ].
Qed.

(** X6. Only [fix_value] changes the bounds and the fixed value of a
    parameter, and only [receive_requests] changes its reference value:
    a sequence of calls without the one leaves the former as they were,
    a sequence without the other leaves the latter. *)
Theorem X6_frame (calls : list (call num)) :
  forall self,
    (Forall (fun c => forall v, c <> CallFixValue v) calls ->
     _min_value (after_all self calls) = _min_value self
     /\ _max_value (after_all self calls) = _max_value self
     /\ _value (after_all self calls) = _value self)
    /\ (Forall (fun c => forall r, c <> CallReceiveRequests r) calls ->
        _reference_value (after_all self calls) = _reference_value self).
Proof.
  unfold after_all.
  induction calls as [ | c calls IH ]; intros self; cbn [fold_left].
  - split; intros _; repeat split; reflexivity.
  - destruct (IH (after self c)) as [IHb IHr].
    destruct (after_frame self c) as [Hb Hr]. split; intros Hall.
    + inversion Hall as [ | c0 l Hc Hrest ]; subst.
      destruct (IHb Hrest) as [-> [-> ->]]. exact (Hb Hc).
    + inversion Hall as [ | c0 l Hc Hrest ]; subst.
      rewrite (IHr Hrest). exact (Hr Hc).
Qed.

(** Requests that are all empty leave the object as it is. *)
Lemma receive_empty_requests (ms : list (dict (pyval num))) :
  forall self,
    Forall (fun m => m = []) ms ->
    after_all self (map CallReceiveRequests ms) = self.
Proof.
  unfold after_all.
  induction ms as [ | m ms IH ]; intros self Hall; [ reflexivity | ].
  inversion Hall as [ | m0 l Hm Hrest ]; subst.
  cbn [map fold_left after receive_requests keys]. cbn. apply IH. exact Hrest.
Qed.

(** X7. After any number of [receive_requests] calls the reference value
    is the value of the first entry of the last non-empty mapping
    received; calls with an empty mapping change nothing. *)
Theorem X7_last_nonempty_request_wins self
  (before after_ : list (dict (pyval num))) (k : string) (v : pyval num)
  (rest : dict (pyval num)) :
  Forall (fun m => m = []) after_ ->
  after_all self
    (map CallReceiveRequests (before ++ ((k, v) :: rest) :: after_))
  = set_reference_value self v.
Proof.
  intros Hempty. unfold after_all.
  rewrite map_app, fold_left_app. cbn [map fold_left after].
  fold (after_all
          (receive_requests
             (fold_left after (map CallReceiveRequests before) self)
             ((k, v) :: rest))
          (map CallReceiveRequests after_)).
  rewrite (receive_empty_requests after_ _ Hempty).
  unfold receive_requests at 1. cbn [keys map fst get].
  rewrite String.eqb_refl.
  assert (Honly : forall ms (p : Param num),
             exists r,
               fold_left after (map CallReceiveRequests ms) p
               = set_reference_value p r).
  { induction ms as [ | m ms IH ]; intros p; cbn [map fold_left after].
    - exists (_reference_value p). destruct p; reflexivity.
    - destruct (IH (receive_requests p m)) as [r ->].
      exists r. unfold receive_requests. destruct (keys m); reflexivity. }
  destruct (Honly before self) as [r ->]. reflexivity.
Qed.

(** X8. A parameter constructed without one of its bounds, or with two
    equal bounds, is fixed, and only then; [process] on a new fixed
    parameter returns the one entry that binds its name to the keyword
    [value] (to [None] when there is none). *)
Theorem X8_constructed_fixed_process (kw : init_kwargs num) self kwargs :
  __init__ kw = Ok self ->
  (has_range self = false
   <-> kw_min_value kw = PNone \/ kw_max_value kw = PNone
       \/ min_max_same (kw_min_value kw) (kw_max_value kw) = true)
  /\ (has_range self = false ->
      contains kwargs (kw_name kw) = false ->
      process self kwargs = Ok [(kw_name kw, kw_value kw)]).
Proof.
  intros Hinit.
  destruct (init_attributes _ _ Hinit) as [Hname [_ [_ [_ [Hval [Href _]]]]]].
  split.
  - revert Hinit. unfold __init__, has_range.
    destruct (kw_min_value kw) as [ | mn ], (kw_max_value kw) as [ | mx ];
      cbn [min_max_same].
    1-3: destruct (kw_log kw); intros [= <-]; cbn; split; auto.
    destruct (num_eqb mn mx) eqn:Heq.
    + destruct (kw_log kw); intros [= <-]; cbn; split; auto.
    + destruct (kw_log kw); cbn.
      * destruct (num_leb mn num_zero || num_leb mx num_zero);
          [ discriminate | ].
        intros [= <-]; cbn. split; [ discriminate | ].
        intros [Hx | [Hx | Hx]]; discriminate Hx.
      * intros [= <-]; cbn. split; [ discriminate | ].
        intros [Hx | [Hx | Hx]]; discriminate Hx.
  - intros Hfixed Hin. rewrite process_paths, Hname, Hin, Hfixed.
    unfold reference_entry. rewrite Href, Hval. reflexivity.
Qed.

(** After any sequence of calls the two bounds are those the object
    had, or both have been cleared. *)
Lemma after_all_bounds (calls : list (call num)) :
  forall self,
    (_min_value (after_all self calls) = _min_value self
     /\ _max_value (after_all self calls) = _max_value self)
    \/ (_min_value (after_all self calls) = PNone
        /\ _max_value (after_all self calls) = PNone).
Proof.
  unfold after_all.
  induction calls as [ | c calls IH ]; intros self; cbn [fold_left].
  - left. split; reflexivity.
  - destruct (IH (after self c)) as [[-> ->] | Hnone]; [ | right; exact Hnone ].
    destruct c as [v clip | f | kwargs | requests | v ].
    + destruct (proj1 (after_frame self (CallFraction v clip)))
        as [Hmn [Hmx _]]; [ discriminate | auto ].
    + left. split; reflexivity.
    + left. split; reflexivity.
    + destruct (proj1 (after_frame self (CallReceiveRequests requests)))
        as [Hmn [Hmx _]]; [ discriminate | auto ].
    + right. split; reflexivity.
Qed.

End ParameterLifetime.

(* ------------------------------------------------------------------ *)
(** ** The arithmetic of the doubles

    What the parameter class needs of binary64: the order, [np.clip],
    and when a sum, a difference or a product is NaN.  The facts come
    from the specification of the primitive operations ([FloatAxioms])
    over [SpecFloat]. *)

Section DoubleOrder.
Import binary64.
Local Open Scope float_scope.

Lemma SFcompare_antisym (x y : spec_float) (c : comparison) :
  SFcompare x y = Some c -> SFcompare y x = Some (CompOpp c).
Proof.
  destruct x as [sx|sx| |sx mx ex], y as [sy|sy| |sy my ey]; cbn;
    try discriminate;
    try (intros [= <-]; reflexivity);
    try (destruct sx; intros [= <-]; reflexivity);
    try (destruct sy; intros [= <-]; reflexivity);
    try (destruct sx, sy; intros [= <-]; reflexivity).
  intros [= <-]. f_equal.
  rewrite (Z.compare_antisym ex ey).
  change (PosDef.Pos.compare_cont Eq my mx) with (Pos.compare my mx).
  change (PosDef.Pos.compare_cont Eq mx my) with (Pos.compare mx my).
  rewrite (Pos.compare_antisym mx my).
  destruct sx, sy; cbn; try reflexivity;
    destruct (ex ?= ey)%Z; cbn; try reflexivity;
    destruct (mx ?= my)%positive; reflexivity.
Qed.

Lemma SFcompare_some (x y : spec_float) :
  SFeqb x x = true -> SFeqb y y = true -> exists c, SFcompare x y = Some c.
Proof.
  unfold SFeqb.
  destruct x, y; cbn; try discriminate; intros _ _; eexists; reflexivity.
Qed.

Lemma SFcompare_refl (x : spec_float) :
  x <> S754_nan -> SFcompare x x = Some Eq.
Proof.
  destruct x as [s|s| |s m e]; cbn; try congruence; intros _.
  - destruct s; reflexivity.
  - rewrite Z.compare_refl.
    change (PosDef.Pos.compare_cont Eq m m) with (Pos.compare m m).
    rewrite Pos.compare_refl. destruct s; reflexivity.
Qed.

(** The sign of a zero plays no role in a comparison. *)
Lemma SFcompare_zero_l (s1 s2 : bool) (q : spec_float) :
  SFcompare (S754_zero s1) q = SFcompare (S754_zero s2) q.
Proof. destruct q; reflexivity. Qed.

Lemma Prim2SF_one : exists m e, Prim2SF 1 = S754_finite false m e.
Proof. eexists. eexists. vm_compute. reflexivity. Qed.

Lemma is_nan_spec (x : float) : is_nan x = sf_nan (Prim2SF x).
Proof.
  unfold is_nan. rewrite eqb_spec. unfold SFeqb.
  destruct (Prim2SF x) as [s|s| |s m e] eqn:E;
    try (rewrite SFcompare_refl by discriminate; reflexivity).
  reflexivity.
Qed.

Lemma is_zero_spec (x : float) : is_zero x = sf_zero (Prim2SF x).
Proof.
  unfold is_zero. rewrite eqb_spec.
  change (Prim2SF zero) with (S754_zero false). unfold SFeqb.
  destruct (Prim2SF x) as [s|s| |s m e]; cbn; try reflexivity;
    destruct s; reflexivity.
Qed.

Lemma is_infinity_spec (x : float) : is_infinity x = sf_inf (Prim2SF x).
Proof.
  unfold is_infinity. rewrite eqb_spec, abs_spec.
  change (Prim2SF infinity) with (S754_infinity false). unfold SFeqb.
  destruct (Prim2SF x) as [s|s| |s m e]; cbn; reflexivity.
Qed.

Lemma is_finite_spec (x : float) :
  is_finite x = negb (sf_nan (Prim2SF x)) && negb (sf_inf (Prim2SF x)).
Proof.
  unfold is_finite. rewrite is_nan_spec, is_infinity_spec.
  apply negb_orb.
Qed.

Lemma is_finite_cases (x : float) :
  is_finite x = true ->
  (exists s, Prim2SF x = S754_zero s)
  \/ (exists s m e, Prim2SF x = S754_finite s m e).
Proof.
  rewrite is_finite_spec.
  destruct (Prim2SF x) as [s|s| |s m e]; cbn; try discriminate; intros _.
  - left. eexists. reflexivity.
  - right. eexists. eexists. eexists. reflexivity.
Qed.

Lemma is_finite_not_nan (x : float) : is_finite x = true -> is_nan x = false.
Proof.
  rewrite is_finite_spec, is_nan_spec.
  destruct (sf_nan (Prim2SF x)); [ discriminate | reflexivity ].
Qed.

Lemma is_zero_cases (x : float) :
  is_zero x = true -> exists s, Prim2SF x = S754_zero s.
Proof.
  rewrite is_zero_spec.
  destruct (Prim2SF x) as [s|s| |s m e]; cbn; try discriminate; intros _.
  eexists. reflexivity.
Qed.

Lemma float_eqb_refl (x : float) : is_nan x = false -> (x =? x) = true.
Proof. unfold is_nan. intros H. apply negb_false_iff in H. exact H. Qed.

Lemma float_leb_refl (x : float) : is_nan x = false -> (x <=? x) = true.
Proof.
  unfold is_nan. rewrite eqb_spec, leb_spec. unfold SFeqb, SFleb.
  destruct (SFcompare (Prim2SF x) (Prim2SF x)) as [[]|]; cbn; congruence.
Qed.

Lemma float_ltb_leb (x y : float) : (x <? y) = true -> (x <=? y) = true.
Proof.
  rewrite ltb_spec, leb_spec. unfold SFltb, SFleb.
  destruct (SFcompare (Prim2SF x) (Prim2SF y)) as [[]|]; cbn; congruence.
Qed.

Lemma float_not_ltb_leb (x y : float) :
  is_nan x = false -> is_nan y = false -> (x <? y) = false ->
  (y <=? x) = true.
Proof.
  unfold is_nan. rewrite !eqb_spec, ltb_spec, leb_spec.
  intros Hx Hy.
  apply negb_false_iff in Hx. apply negb_false_iff in Hy.
  destruct (SFcompare_some _ _ Hx Hy) as [c Hc].
  unfold SFltb, SFleb. rewrite Hc, (SFcompare_antisym _ _ _ Hc).
  destruct c; cbn; congruence.
Qed.

(** A comparison with a NaN is false. *)
Lemma float_leb_not_nan (x y : float) :
  (x <=? y) = true -> is_nan x = false /\ is_nan y = false.
Proof.
  unfold is_nan. rewrite !eqb_spec, leb_spec. unfold SFleb, SFeqb.
  intros H.
  assert (Hx : Prim2SF x <> S754_nan)
    by (intros E; rewrite E in H; discriminate).
  assert (Hy : Prim2SF y <> S754_nan)
    by (intros E; rewrite E in H; destruct (Prim2SF x); discriminate).
  rewrite (SFcompare_refl _ Hx), (SFcompare_refl _ Hy). split; reflexivity.
Qed.

Lemma float_ltb_not_nan (x y : float) :
  (x <? y) = true -> is_nan x = false /\ is_nan y = false.
Proof.
  intros H. apply float_leb_not_nan. apply float_ltb_leb. exact H.
Qed.

Lemma float_ltb_asym (x y : float) : (x <? y) = true -> (y <? x) = false.
Proof.
  rewrite !ltb_spec. unfold SFltb.
  destruct (SFcompare (Prim2SF x) (Prim2SF y)) as [c|] eqn:E;
    [ | discriminate ].
  rewrite (SFcompare_antisym _ _ _ E). destruct c; cbn; congruence.
Qed.

Lemma float_ltb_not_eqb (x y : float) :
  (x <? y) = true -> (x =? y) = false /\ (y =? x) = false.
Proof.
  rewrite ltb_spec, !eqb_spec. unfold SFltb, SFeqb.
  destruct (SFcompare (Prim2SF x) (Prim2SF y)) as [c|] eqn:E;
    [ | discriminate ].
  rewrite (SFcompare_antisym _ _ _ E). destruct c; cbn; try discriminate.
  split; reflexivity.
Qed.

Lemma float_leb_not_ltb (x y : float) : (x <=? y) = true -> (y <? x) = false.
Proof.
  rewrite ltb_spec, leb_spec. unfold SFltb, SFleb.
  destruct (SFcompare (Prim2SF x) (Prim2SF y)) as [c|] eqn:E;
    [ | discriminate ].
  rewrite (SFcompare_antisym _ _ _ E). destruct c; cbn; congruence.
Qed.

Lemma float_leb_ltb_or_eqb (x y : float) :
  (x <=? y) = true -> (x <? y) = false -> (y =? x) = true.
Proof.
  rewrite ltb_spec, leb_spec, eqb_spec. unfold SFltb, SFleb, SFeqb.
  destruct (SFcompare (Prim2SF x) (Prim2SF y)) as [c|] eqn:E;
    [ | discriminate ].
  rewrite (SFcompare_antisym _ _ _ E). destruct c; cbn; congruence.
Qed.

Lemma float_not_ltb_cases (x y : float) :
  is_nan x = false -> is_nan y = false -> (x <? y) = false ->
  negb (y =? x) = (y <? x).
Proof.
  unfold is_nan. rewrite !eqb_spec, !ltb_spec.
  intros Hx Hy.
  apply negb_false_iff in Hx. apply negb_false_iff in Hy.
  destruct (SFcompare_some _ _ Hx Hy) as [c Hc].
  unfold SFltb, SFeqb. rewrite Hc, (SFcompare_antisym _ _ _ Hc).
  destruct c; cbn; congruence.
Qed.


Lemma unit_interval : (0 <? 1) = true.
Proof. reflexivity. Qed.

Lemma zero_in_unit (z : float) :
  is_zero z = true -> (0 <=? z) = true /\ (z <=? 1) = true.
Proof.
  intros Hz. apply is_zero_cases in Hz. destruct Hz as [s Hz].
  rewrite !leb_spec, Hz. change (Prim2SF 0) with (S754_zero false).
  destruct Prim2SF_one as [m1 [e1 ->]]. split; reflexivity.
Qed.

(** The fractions of [0, 1] are finite. *)
Lemma unit_fraction_finite (f : float) :
  (0 <=? f) = true -> (f <=? 1) = true -> is_finite f = true.
Proof.
  rewrite !leb_spec, is_finite_spec.
  change (Prim2SF 0) with (S754_zero false).
  destruct Prim2SF_one as [m1 [e1 H1]]. rewrite H1.
  unfold SFleb.
  destruct (Prim2SF f) as [s|s| |s m e]; cbn; try reflexivity;
    try discriminate.
  destruct s; cbn; intros; discriminate.
Qed.

Lemma positive_cases (f : float) :
  (0 <? f) = true ->
  Prim2SF f = S754_infinity false
  \/ exists m e, Prim2SF f = S754_finite false m e.
Proof.
  rewrite ltb_spec. change (Prim2SF 0) with (S754_zero false).
  unfold SFltb.
  destruct (Prim2SF f) as [s|s| |s m e]; cbn; try discriminate.
  - destruct s; [ discriminate | ]. intros _. left. reflexivity.
  - destruct s; [ discriminate | ]. intros _. right.
    eexists. eexists. reflexivity.
Qed.

Lemma negative_cases (f : float) :
  (f <? 0) = true ->
  Prim2SF f = S754_infinity true
  \/ exists m e, Prim2SF f = S754_finite true m e.
Proof.
  rewrite ltb_spec. change (Prim2SF 0) with (S754_zero false).
  unfold SFltb.
  destruct (Prim2SF f) as [s|s| |s m e]; cbn; try discriminate.
  - destruct s; [ | discriminate ]. intros _. left. reflexivity.
  - destruct s; [ | discriminate ]. intros _. right.
    eexists. eexists. reflexivity.
Qed.

End DoubleOrder.

(** *** [np.clip] on doubles *)

Section DoubleClip.
Import binary64.
Local Open Scope float_scope.

(** A NaN goes through the clip. *)
Lemma float_clip_nan (u lo hi : float) :
  (lo <=? hi) = true -> is_nan u = true -> np_clip u lo hi = u.
Proof.
  intros Hrange Hu. destruct (float_leb_not_nan lo hi Hrange) as [Hlo Hhi].
  unfold np_clip. cbn [np_minimum np_maximum float_Number].
  unfold float_minimum, float_maximum. rewrite Hu, Hhi, Hu. reflexivity.
Qed.

(** Anything else is brought within the two bounds. *)
Lemma float_clip_bounds (u lo hi : float) :
  (lo <=? hi) = true -> is_nan u = false ->
  (lo <=? np_clip u lo hi) = true
  /\ (np_clip u lo hi <=? hi) = true
  /\ (np_clip u lo hi = lo \/ np_clip u lo hi = hi \/ np_clip u lo hi = u).
Proof.
  intros Hrange Hu. destruct (float_leb_not_nan lo hi Hrange) as [Hlo Hhi].
  unfold np_clip. cbn [np_minimum np_maximum float_Number].
  unfold float_minimum, float_maximum. rewrite Hu, Hlo, Hhi.
  destruct (u <? lo) eqn:E1.
  - rewrite Hlo. destruct (lo <? hi) eqn:E2.
    + repeat split; auto using float_leb_refl.
    + repeat split; auto using float_leb_refl.
  - rewrite Hu. destruct (u <? hi) eqn:E2.
    + repeat split; auto using float_not_ltb_leb, float_ltb_leb.
    + repeat split; auto using float_leb_refl.
Qed.

Lemma float_clip_inside (u lo hi : float) :
  (lo <=? u) = true -> (u <=? hi) = true ->
  (np_clip u lo hi =? u) = true.
Proof.
  intros H1 H2.
  destruct (float_leb_not_nan _ _ H1) as [Hlo Hu].
  destruct (float_leb_not_nan _ _ H2) as [_ Hhi].
  unfold np_clip. cbn [np_minimum np_maximum float_Number].
  unfold float_minimum, float_maximum. rewrite Hu, Hlo, Hhi.
  rewrite (float_leb_not_ltb _ _ H1), Hu.
  destruct (u <? hi) eqn:E.
  - apply float_eqb_refl. exact Hu.
  - apply float_leb_ltb_or_eqb; assumption.
Qed.

Lemma float_clip_below (u lo hi : float) :
  (lo <=? u) = true -> (u <? hi) = true -> np_clip u lo hi = u.
Proof.
  intros H0 Hlt.
  destruct (float_leb_not_nan _ _ H0) as [Hlo Hu].
  destruct (float_ltb_not_nan _ _ Hlt) as [_ Hhi].
  unfold np_clip. cbn [np_minimum np_maximum float_Number].
  unfold float_minimum, float_maximum.
  rewrite Hu, Hlo, (float_leb_not_ltb _ _ H0), Hhi, Hu, Hlt. reflexivity.
Qed.

Lemma clip_zero_unit (z : float) : is_zero z = true -> np_clip z 0 1 = z.
Proof.
  intros Hz. destruct (zero_in_unit z Hz) as [H0 H1].
  apply float_clip_below; [ exact H0 | ].
  apply is_zero_cases in Hz. destruct Hz as [s Hz].
  rewrite ltb_spec, Hz. destruct Prim2SF_one as [m1 [e1 ->]].
  reflexivity.
Qed.

(** The test [f != of] after [of = f; f = np.clip(f, lo, hi)]. *)
Lemma float_clip_changes (u lo hi : float) :
  (lo <? hi) = true ->
  negb (np_clip u lo hi =? u) = is_nan u || (u <? lo) || (hi <? u).
Proof.
  intros Hlt. destruct (float_ltb_not_nan lo hi Hlt) as [Hlo Hhi].
  destruct (is_nan u) eqn:Hu.
  - rewrite (float_clip_nan u lo hi (float_ltb_leb _ _ Hlt) Hu). cbn [orb].
    unfold is_nan in Hu. exact Hu.
  - cbn [orb]. unfold np_clip. cbn [np_minimum np_maximum float_Number].
    unfold float_minimum, float_maximum. rewrite Hu, Hlo, Hhi.
    destruct (u <? lo) eqn:E1.
    + rewrite Hlo, Hlt. cbn [orb].
      rewrite (proj2 (float_ltb_not_eqb _ _ E1)). reflexivity.
    + rewrite Hu. cbn [orb]. destruct (u <? hi) eqn:E2.
      * rewrite (float_eqb_refl u Hu), (float_ltb_asym _ _ E2). reflexivity.
      * apply float_not_ltb_cases; assumption.
Qed.

(** An infinity is clipped to the bound on its side. *)
Lemma clip_infinity (mn mx u : float) (s : bool) :
  is_finite mn = true -> is_finite mx = true -> (mn <? mx) = true ->
  Prim2SF u = S754_infinity s ->
  np_clip u mn mx = if s then mn else mx.
Proof.
  intros Hmn Hmx Hrange Hu.
  assert (Hnu : is_nan u = false) by (rewrite is_nan_spec, Hu; reflexivity).
  pose proof (is_finite_not_nan mn Hmn) as Hnmn.
  pose proof (is_finite_not_nan mx Hmx) as Hnmx.
  assert (Hlt : forall q, is_finite q = true -> (u <? q) = s).
  { intros q Hq. rewrite !ltb_spec, Hu. unfold SFltb.
    destruct (is_finite_cases q Hq) as [[sq ->] | [sq [mq [eq ->]]]];
      destruct s; reflexivity. }
  unfold np_clip. cbn [np_minimum np_maximum float_Number].
  unfold float_minimum, float_maximum.
  rewrite Hnu, Hnmn, (Hlt mn Hmn), Hnmx.
  destruct s.
  - rewrite Hnmn, Hrange. reflexivity.
  - rewrite Hnu, (Hlt mx Hmx). reflexivity.
Qed.

End DoubleClip.

(** *** When a result is NaN *)

Section DoubleRounding.
Import binary64.
Local Open Scope Z_scope.

Lemma shr_1_nonneg (mrs : shr_record) :
  0 <= shr_m mrs -> 0 <= shr_m (shr_1 mrs).
Proof.
  destruct mrs as [m r s]. destruct m as [ | p | p ]; cbn.
  - intros _. lia.
  - intros _. destruct p; cbn; lia.
  - intros Hneg. lia.
Qed.

Lemma iter_pos_invariant (A : Type) (P : A -> Prop) (f : A -> A) :
  (forall x, P x -> P (f x)) ->
  forall (p : positive) (x : A), P x -> P (iter_pos f p x).
Proof.
  intros Hf. induction p as [ p IH | p IH | ]; intros x Hx; cbn; auto.
Qed.

Lemma shr_nonneg (mrs : shr_record) (e n : Z) :
  0 <= shr_m mrs -> 0 <= shr_m (fst (shr mrs e n)).
Proof.
  intros Hm. unfold shr. destruct n; cbn [fst]; try exact Hm.
  apply (iter_pos_invariant _ (fun r => 0 <= shr_m r)); [ | exact Hm ].
  exact shr_1_nonneg.
Qed.

Lemma shr_fexp_nonneg (m e : Z) (l : location) :
  0 <= m -> 0 <= shr_m (fst (shr_fexp prec emax m e l)).
Proof.
  intros Hm. unfold shr_fexp. apply shr_nonneg.
  destruct l as [ | [ | | ] ]; exact Hm.
Qed.

Lemma round_nearest_even_nonneg (m : Z) (l : location) :
  0 <= m -> 0 <= round_nearest_even m l.
Proof.
  intros Hm. destruct l as [ | [ | | ] ]; cbn; try destruct (Z.even m); lia.
Qed.

(** Rounding a mantissa that is not negative never gives a NaN. *)
Lemma binary_round_aux_not_nan (s : bool) (m e : Z) (l : location) :
  0 <= m -> sf_nan (binary_round_aux prec emax s m e l) = false.
Proof.
  intros Hm. unfold binary_round_aux.
  pose proof (shr_fexp_nonneg m e l Hm) as H1.
  destruct (shr_fexp prec emax m e l) as [mrs1 e1]. cbn [fst] in H1.
  pose proof (shr_fexp_nonneg _ e1 loc_Exact
                (round_nearest_even_nonneg _ (loc_of_shr_record mrs1) H1))
    as H2.
  destruct (shr_fexp prec emax
              (round_nearest_even (shr_m mrs1) (loc_of_shr_record mrs1))
              e1 loc_Exact) as [mrs2 e2].
  cbn [fst] in H2.
  destruct (shr_m mrs2) as [ | p | p ]; [ reflexivity | | lia ].
  destruct (e2 <=? emax - prec); reflexivity.
Qed.

Lemma binary_normalize_not_nan (m e : Z) (szero : bool) :
  sf_nan (binary_normalize prec emax m e szero) = false.
Proof.
  unfold binary_normalize, binary_round.
  destruct m as [ | p | p ]; [ reflexivity | | ];
    match goal with
    | |- context [shl_align ?a ?b ?c] => destruct (shl_align a b c)
    end;
    apply binary_round_aux_not_nan; lia.
Qed.

Lemma SFsub_not_nan (x y : spec_float) :
  sf_nan x = false -> sf_nan y = false -> sf_inf x && sf_inf y = false ->
  sf_nan (SFsub prec emax x y) = false.
Proof.
  destruct x as [sx|sx| |sx mx ex], y as [sy|sy| |sy my ey];
    cbn [sf_nan sf_inf andb]; try discriminate; intros _ _ _;
    unfold SFsub; try reflexivity.
  - destruct sx, sy; reflexivity.
  - apply binary_normalize_not_nan.
Qed.

Lemma SFadd_not_nan (x y : spec_float) :
  sf_nan x = false -> sf_nan y = false -> sf_inf x && sf_inf y = false ->
  sf_nan (SFadd prec emax x y) = false.
Proof.
  destruct x as [sx|sx| |sx mx ex], y as [sy|sy| |sy my ey];
    cbn [sf_nan sf_inf andb]; try discriminate; intros _ _ _;
    unfold SFadd; try reflexivity.
  - destruct sx, sy; reflexivity.
  - apply binary_normalize_not_nan.
Qed.

(** A product is NaN exactly when it is zero times infinity. *)
Lemma SFmul_nan (x y : spec_float) :
  sf_nan x = false -> sf_nan y = false ->
  sf_nan (SFmul prec emax x y)
  = (sf_zero x && sf_inf y) || (sf_inf x && sf_zero y).
Proof.
  destruct x as [sx|sx| |sx mx ex], y as [sy|sy| |sy my ey];
    cbn [sf_nan sf_inf sf_zero andb orb]; try discriminate; intros _ _;
    unfold SFmul; try reflexivity.
  apply binary_round_aux_not_nan. lia.
Qed.

End DoubleRounding.

(** *** The unclipped quantity [f * (mx - mn) + mn] *)

Section DoubleUnclipped.
Import binary64.
Local Open Scope float_scope.

(** For a finite fraction and finite bounds it is NaN exactly when the
    fraction is zero and [mx - mn] has overflowed. *)
Lemma unclipped_nan (mn mx f : float) :
  is_finite mn = true -> is_finite mx = true -> is_finite f = true ->
  is_nan (f * (mx - mn) + mn) = is_zero f && is_infinity (mx - mn).
Proof.
  rewrite !is_finite_spec, is_nan_spec, is_zero_spec, is_infinity_spec.
  rewrite add_spec, mul_spec, sub_spec.
  intros Hmn Hmx Hf.
  apply andb_true_iff in Hmn, Hmx, Hf.
  destruct Hmn as [Hmn1 Hmn2], Hmx as [Hmx1 Hmx2], Hf as [Hf1 Hf2].
  apply negb_true_iff in Hmn1, Hmn2, Hmx1, Hmx2, Hf1, Hf2.
  set (pmn := Prim2SF mn) in *. set (pmx := Prim2SF mx) in *.
  set (pf := Prim2SF f) in *.
  assert (Hd : sf_nan (SF64sub pmx pmn) = false).
  { apply SFsub_not_nan; try assumption. rewrite Hmx2. reflexivity. }
  set (d := SF64sub pmx pmn) in *.
  pose proof (SFmul_nan pf d Hf1 Hd) as Hp.
  rewrite Hf2 in Hp. cbn [andb] in Hp. rewrite orb_false_r in Hp.
  fold SF64mul in Hp.
  destruct (sf_zero pf && sf_inf d) eqn:E.
  - unfold SF64add, SFadd.
    destruct (SF64mul pf d); try discriminate Hp. reflexivity.
  - apply SFadd_not_nan; try assumption.
    rewrite Hmn2. apply andb_false_r.
Qed.

(** A zero divided by a finite number other than zero is a zero. *)
Lemma zero_div (n d : float) :
  is_zero n = true -> is_finite d = true -> is_zero d = false ->
  is_zero (n / d) = true.
Proof.
  intros Hn Hd Hd0. apply is_zero_cases in Hn. destruct Hn as [sn Hn].
  rewrite is_zero_spec in Hd0.
  destruct (is_finite_cases d Hd) as [[sd Hdz] | [sd [md [ed Hdf]]]].
  - rewrite Hdz in Hd0. discriminate Hd0.
  - rewrite is_zero_spec, div_spec, Hn, Hdf. reflexivity.
Qed.

(** A finite number minus itself is a zero. *)
Lemma sub_diag_zero (x : float) :
  is_finite x = true -> is_zero (x - x) = true.
Proof.
  intros Hx. rewrite is_zero_spec, sub_spec.
  destruct (is_finite_cases x Hx) as [[sx ->] | [sx [mx [ex ->]]]].
  - destruct sx; reflexivity.
  - unfold SF64sub, SFsub. rewrite Z.sub_diag. reflexivity.
Qed.

(** With a zero fraction and a finite width, it is the lower bound. *)
Lemma zero_fraction_unclipped (mn d f : float) :
  is_finite mn = true -> is_finite d = true -> is_zero f = true ->
  Prim2SF (f * d + mn) = Prim2SF mn
  \/ (exists s1 s2, Prim2SF (f * d + mn) = S754_zero s1
                    /\ Prim2SF mn = S754_zero s2).
Proof.
  intros Hmn Hd Hf. apply is_zero_cases in Hf. destruct Hf as [sf Hf].
  rewrite add_spec, mul_spec, Hf.
  assert (Hp : exists sp, SF64mul (S754_zero sf) (Prim2SF d) = S754_zero sp).
  { destruct (is_finite_cases d Hd) as [[sd ->] | [sd [md [ed ->]]]];
      eexists; reflexivity. }
  destruct Hp as [sp ->].
  destruct (is_finite_cases mn Hmn) as [[sm ->] | [sm [mm [em ->]]]].
  - right. destruct sp, sm; eexists; eexists; split; reflexivity.
  - left. reflexivity.
Qed.

Lemma lower_bound_value (mn mx f : float) :
  is_finite mn = true -> is_finite mx = true -> (mn <? mx) = true ->
  is_finite (mx - mn) = true -> is_zero f = true ->
  let u := f * (mx - mn) + mn in
  np_clip u mn mx = u /\ (u =? mn) = true /\ is_zero (u - mn) = true.
Proof.
  intros Hmn Hmx Hlt Hd Hf u.
  destruct (float_ltb_not_nan _ _ Hlt) as [Hnmn Hnmx].
  pose proof (zero_fraction_unclipped mn (mx - mn) f Hmn Hd Hf) as Hu.
  fold u in Hu.
  assert (Hcmp : forall q, SFcompare (Prim2SF u) q = SFcompare (Prim2SF mn) q).
  { intros q. destruct Hu as [-> | [s1 [s2 [-> ->]]]];
      [ reflexivity | apply SFcompare_zero_l ]. }
  assert (Hnu : is_nan u = false).
  { rewrite is_nan_spec. rewrite is_nan_spec in Hnmn.
    destruct Hu as [-> | [s1 [s2 [-> _]]]]; [ exact Hnmn | reflexivity ]. }
  pose proof (float_eqb_refl mn Hnmn) as Hrefl.
  rewrite eqb_spec in Hrefl. unfold SFeqb in Hrefl.
  assert (Heq : (u =? mn) = true).
  { rewrite eqb_spec. unfold SFeqb. rewrite Hcmp. exact Hrefl. }
  assert (Hlo : (u <? mn) = false).
  { rewrite ltb_spec. unfold SFltb. rewrite Hcmp.
    destruct (SFcompare (Prim2SF mn) (Prim2SF mn)) as [[]|];
      try discriminate Hrefl; reflexivity. }
  assert (Hhi : (u <? mx) = true).
  { rewrite ltb_spec. unfold SFltb. rewrite Hcmp.
    rewrite ltb_spec in Hlt. exact Hlt. }
  split; [ | split; [ exact Heq | ] ].
  - unfold np_clip. cbn [np_minimum np_maximum float_Number].
    unfold float_minimum, float_maximum.
    rewrite Hnu, Hnmn, Hlo, Hnmx, Hnu, Hhi. reflexivity.
  - destruct Hu as [Hsame | [s1 [s2 [Hz1 Hz2]]]].
    + apply Prim2SF_inj in Hsame. rewrite Hsame.
      apply sub_diag_zero. exact Hmn.
    + rewrite is_zero_spec, sub_spec, Hz1, Hz2.
      destruct s1, s2; reflexivity.
Qed.

(** With a width that has overflowed, it is an infinity of the sign of
    the fraction. *)
Lemma overflow_unclipped (mn f : float) (s : bool) :
  is_finite mn = true ->
  (Prim2SF f = S754_infinity s
   \/ exists m e, Prim2SF f = S754_finite s m e) ->
  Prim2SF (f * infinity + mn) = S754_infinity s.
Proof.
  intros Hmn Hf. rewrite add_spec, mul_spec.
  change (Prim2SF infinity) with (S754_infinity false).
  assert (Hp : SF64mul (Prim2SF f) (S754_infinity false) = S754_infinity s).
  { destruct Hf as [-> | [m [e ->]]]; destruct s; reflexivity. }
  rewrite Hp.
  destruct (is_finite_cases mn Hmn) as [[sm ->] | [sm [mm [em ->]]]];
    reflexivity.
Qed.

End DoubleUnclipped.

(* ------------------------------------------------------------------ *)
(** ** The value and fraction transforms *)

Section ParameterFormulas.
Import parameter.
Context {num : Type} `{Number num}.

Lemma value_formula (self : Param num) (mn mx f : num) :
  _min_value self = PNum mn ->
  _max_value self = PNum mx ->
  value self (PNum f)
  = Ok (let c := np_clip (num_add (num_mul f (num_sub mx mn)) mn) mn mx in
        if _log self then np_exp c else c).
Proof.
  intros Hmn Hmx. unfold value. rewrite Hmn, Hmx. reflexivity.
Qed.

Lemma fraction_formula (self : Param num) (mn mx x : num) :
  _min_value self = PNum mn ->
  _max_value self = PNum mx ->
  fraction self (PNum x) false
  = Ok (num_div (num_sub (if _log self then np_log x else x) mn)
          (num_sub mx mn), self).
Proof.
  intros Hmn Hmx. unfold fraction. rewrite Hmn, Hmx. reflexivity.
Qed.

Lemma fraction_clip_formula (self : Param num) (mn mx x : num) :
  _min_value self = PNum mn ->
  _max_value self = PNum mx ->
  let raw := num_div (num_sub (if _log self then np_log x else x) mn)
               (num_sub mx mn) in
  fraction self (PNum x) true
  = Ok (np_clip raw num_zero num_one,
        if negb (num_eqb (np_clip raw num_zero num_one) raw)
           && negb (_clipped_warning self)
        then warn_clipped self else self).
Proof.
  intros Hmn Hmx raw. unfold fraction. rewrite Hmn, Hmx. cbn zeta.
  fold raw.
  destruct (negb (num_eqb (np_clip raw num_zero num_one) raw)
            && negb (_clipped_warning self)); reflexivity.
Qed.

(** The bounds a new object holds, when it holds two. *)
Lemma init_stored_bounds (kw : init_kwargs num) (self : Param num)
  (mn mx : num) :
  __init__ kw = Ok self ->
  _min_value self = PNum mn ->
  _max_value self = PNum mx ->
  exists a b,
    kw_min_value kw = PNum a /\ kw_max_value kw = PNum b
    /\ num_eqb a b = false
    /\ (kw_log kw = false -> mn = a /\ mx = b)
    /\ (kw_log kw = true ->
        mn = np_log a /\ mx = np_log b
        /\ num_leb a num_zero = false /\ num_leb b num_zero = false).
Proof.
  unfold __init__.
  destruct (kw_min_value kw) as [ | a ], (kw_max_value kw) as [ | b ];
    cbn [min_max_same].
  1-3: destruct (kw_log kw); cbn; intros [= <-]; discriminate.
  destruct (num_eqb a b) eqn:Heq.
  - destruct (kw_log kw); cbn; intros [= <-]; discriminate.
  - intros Hinit Hmn Hmx.
    exists a, b. split; [ reflexivity | split; [ reflexivity | ] ].
    split; [ exact Heq | ].
    destruct (kw_log kw).
    + destruct (num_leb a num_zero) eqn:Hale; [ discriminate Hinit | ].
      destruct (num_leb b num_zero) eqn:Hble; [ discriminate Hinit | ].
      cbn in Hinit. injection Hinit as <-. cbn in Hmn, Hmx.
      injection Hmn as <-. injection Hmx as <-.
      split; [ intros Hl; discriminate Hl | intros _; repeat split ].
    + injection Hinit as <-. cbn in Hmn, Hmx.
      injection Hmn as <-. injection Hmx as <-.
      split; [ intros _; split; reflexivity | intros Hl; discriminate Hl ].
Qed.

(** X13. Whenever the two bounds of a constructed parameter are present,
    after any sequence of calls, they come from the keywords of the
    constructor: these held two numbers that compared unequal, and the
    stored bounds are those numbers, or for a log parameter their
    [np.log], neither of the two numbers being [<= 0]. *)
Theorem X13_bounds_from_constructor (kw : init_kwargs num)
  (self : Param num) (calls : list (call num)) (mn mx : num) :
  __init__ kw = Ok self ->
  _min_value (after_all self calls) = PNum mn ->
  _max_value (after_all self calls) = PNum mx ->
  exists a b,
    kw_min_value kw = PNum a /\ kw_max_value kw = PNum b
    /\ num_eqb a b = false
    /\ (kw_log kw = false -> mn = a /\ mx = b)
    /\ (kw_log kw = true ->
        mn = np_log a /\ mx = np_log b
        /\ num_leb a num_zero = false /\ num_leb b num_zero = false).
Proof.
  intros Hinit Hmn Hmx.
  destruct (after_all_bounds calls self) as [[Hsame_mn Hsame_mx] | [Hnone _]];
    [ | rewrite Hnone in Hmn; discriminate Hmn ].
  rewrite Hsame_mn in Hmn. rewrite Hsame_mx in Hmx.
  exact (init_stored_bounds kw self mn mx Hinit Hmn Hmx).
Qed.

End ParameterFormulas.

(* ------------------------------------------------------------------ *)
(** ** The parameter class on doubles *)

Section ParameterDoubles.
Import binary64 parameter.
Local Open Scope float_scope.

(** C4 (amended). On doubles, for a parameter with a range [mn <= mx],
    [value(f)] is [np.clip(f * (mx - mn) + mn, mn, mx)], passed through
    [np.exp] when [log] is set.  The clipped quantity is [mn], [mx] or
    the unclipped one: the unclipped one when that is NaN, and a number
    within the stored bounds otherwise.  For a fraction of [0, 1] and
    finite bounds the unclipped quantity is NaN exactly when the
    fraction is zero and [mx - mn] has overflowed to an infinity.  The
    stored bounds of a constructed parameter are the bounds given to
    the constructor, or their [np.log] when [log] is set. *)
Theorem C4_value_clipped_on_doubles (self : Param float) (mn mx f : float) :
  _min_value self = PNum mn ->
  _max_value self = PNum mx ->
  (mn <=? mx) = true ->
  let u := f * (mx - mn) + mn in
  let c := np_clip u mn mx in
  value self (PNum f) = Ok (if _log self then np_exp c else c)
  /\ (c = mn \/ c = mx \/ c = u)
  /\ (is_nan u = true -> c = u)
  /\ (is_nan u = false -> (mn <=? c) = true /\ (c <=? mx) = true)
  /\ ((0 <=? f) = true -> (f <=? 1) = true ->
      is_finite mn = true -> is_finite mx = true ->
      is_nan u = is_zero f && is_infinity (mx - mn))
  /\ (forall kw,
        __init__ kw = Ok self ->
        exists a b,
          kw_min_value kw = PNum a /\ kw_max_value kw = PNum b
          /\ (if _log self then mn = np_log a /\ mx = np_log b
              else mn = a /\ mx = b)).
Proof.
  intros Hmn Hmx Hrange u c.
  split; [ exact (value_formula self mn mx f Hmn Hmx) | ].
  split.
  { destruct (is_nan u) eqn:Hu.
    - right. right. apply float_clip_nan; assumption.
    - destruct (float_clip_bounds u mn mx Hrange Hu) as [_ [_ Hc]].
      exact Hc. }
  split; [ intros Hu; apply float_clip_nan; assumption | ].
  split.
  { intros Hu.
    destruct (float_clip_bounds u mn mx Hrange Hu) as [Hlo [Hhi _]].
    split; assumption. }
  split.
  { intros H0 H1 Hfmn Hfmx.
    apply unclipped_nan; try assumption.
    apply unit_fraction_finite; assumption. }
  intros kw Hinit.
  destruct (init_stored_bounds kw self mn mx Hinit Hmn Hmx)
    as [a [b [Ha [Hb [_ [Hlin Hlog]]]]]].
  destruct (init_attributes _ _ Hinit) as [_ [Hl _]].
  exists a, b. split; [ exact Ha | split; [ exact Hb | ] ].
  rewrite Hl. destruct (kw_log kw).
  - destruct (Hlog eq_refl) as [Hlmn [Hlmx _]]. split; assumption.
  - exact (Hlin eq_refl).
Qed.


(** X9. On doubles, on a range of finite bounds [mn < mx] whose width
    [mx - mn] has overflowed to infinity, [value] has three results
    only: the upper bound for every positive fraction, the lower bound
    for every negative one, and NaN for a zero fraction (each passed
    through [np.exp] when [log] is set). *)
Theorem X9_overflowing_range (self : Param float) (mn mx f : float) :
  _min_value self = PNum mn ->
  _max_value self = PNum mx ->
  is_finite mn = true -> is_finite mx = true -> (mn <? mx) = true ->
  mx - mn = infinity ->
  ((0 <? f) = true -> value self (PNum f) = Ok (physical self mx))
  /\ ((f <? 0) = true -> value self (PNum f) = Ok (physical self mn))
  /\ (is_zero f = true -> value self (PNum f) = Ok (physical self nan)).
Proof.
  intros Hmn Hmx Hfmn Hfmx Hrange Hd.
  pose proof (value_formula self mn mx f Hmn Hmx) as Hvalue.
  cbn zeta in Hvalue.
  cbn [num_add num_mul num_sub float_Number] in Hvalue.
  rewrite Hd in Hvalue. unfold physical.
  split; [ | split ].
  - intros Hf. rewrite Hvalue.
    rewrite (clip_infinity mn mx _ false Hfmn Hfmx Hrange
               (overflow_unclipped mn f false Hfmn (positive_cases f Hf))).
    reflexivity.
  - intros Hf. rewrite Hvalue.
    rewrite (clip_infinity mn mx _ true Hfmn Hfmx Hrange
               (overflow_unclipped mn f true Hfmn (negative_cases f Hf))).
    reflexivity.
  - intros Hf. rewrite Hvalue.
    assert (Hu : f * infinity + mn = nan).
    { apply Prim2SF_inj. rewrite add_spec, mul_spec.
      apply is_zero_cases in Hf. destruct Hf as [s ->]. reflexivity. }
    rewrite Hu.
    rewrite (float_clip_nan nan mn mx (float_ltb_leb _ _ Hrange) eq_refl).
    reflexivity.
Qed.

(** X10. On doubles, on a parameter with a range, [fraction] with
    clipping returns NaN when the unclipped fraction is NaN and
    otherwise a number of [0, 1], which is 0, 1 or the unclipped
    fraction; when the unclipped fraction lies in [0, 1] the result
    equals it, no warning is sent and the object stays as it is. *)
Theorem X10_fraction_clipped_on_doubles (self : Param float)
  (mn mx v : float) :
  _min_value self = PNum mn ->
  _max_value self = PNum mx ->
  let raw := ((if _log self then np_log v else v) - mn) / (mx - mn) in
  exists f self',
    fraction self (PNum v) true = Ok (f, self')
    /\ (is_nan raw = true -> is_nan f = true)
    /\ (is_nan raw = false ->
        (0 <=? f) = true /\ (f <=? 1) = true
        /\ (f = 0 \/ f = 1 \/ f = raw))
    /\ ((0 <=? raw) = true -> (raw <=? 1) = true ->
        (f =? raw) = true /\ self' = self).
Proof.
  intros Hmn Hmx raw.
  pose proof (fraction_clip_formula self mn mx v Hmn Hmx) as Hcall.
  cbn zeta in Hcall.
  cbn [num_sub num_div num_zero num_one num_eqb float_Number] in Hcall.
  unfold zero, one in Hcall.
  fold raw in Hcall.
  eexists. eexists. split; [ exact Hcall | ].
  pose proof (float_ltb_leb 0 1 unit_interval) as Hunit.
  split; [ | split ].
  - intros Hnan. rewrite (float_clip_nan raw 0 1 Hunit Hnan). exact Hnan.
  - intros Hnan. exact (float_clip_bounds raw 0 1 Hunit Hnan).
  - intros H0 H1. pose proof (float_clip_inside raw 0 1 H0 H1) as Hin.
    split; [ exact Hin | ]. rewrite Hin. reflexivity.
Qed.

(** X11. On doubles, a parameter without [log], with finite bounds
    [mn < mx] whose difference is finite and not zero, takes its lower
    bound to a zero fraction, with or without clipping, sends no
    warning for it and stays as it is; [value] takes that fraction back
    to the lower bound. *)
Theorem X11_lower_bound_round_trip (self : Param float) (mn mx : float)
  (clipping : bool) :
  _min_value self = PNum mn ->
  _max_value self = PNum mx ->
  _log self = false ->
  is_finite mn = true -> is_finite mx = true -> (mn <? mx) = true ->
  is_finite (mx - mn) = true -> is_zero (mx - mn) = false ->
  exists z v,
    fraction self (PNum mn) clipping = Ok (z, self)
    /\ is_zero z = true
    /\ value self (PNum z) = Ok v
    /\ (v =? mn) = true.
Proof.
  intros Hmn Hmx Hlog Hfmn Hfmx Hlt Hfd Hd0.
  assert (Hz : is_zero ((mn - mn) / (mx - mn)) = true).
  { apply zero_div; try assumption. apply sub_diag_zero. exact Hfmn. }
  set (z := (mn - mn) / (mx - mn)) in *.
  destruct (lower_bound_value mn mx z Hfmn Hfmx Hlt Hfd Hz) as [Hc [Heq _]].
  exists z. eexists. split; [ | split; [ exact Hz | split ] ].
  - destruct clipping.
    + pose proof (fraction_clip_formula self mn mx mn Hmn Hmx) as Hcall.
      cbn zeta in Hcall. rewrite Hlog in Hcall.
      cbn [num_sub num_div num_zero num_one num_eqb float_Number] in Hcall.
      unfold zero, one in Hcall.
      fold z in Hcall.
      rewrite (clip_zero_unit z Hz) in Hcall.
      rewrite (float_eqb_refl z) in Hcall
        by (apply (float_leb_not_nan 0 z), zero_in_unit, Hz).
      exact Hcall.
    + rewrite (fraction_formula self mn mx mn Hmn Hmx), Hlog. reflexivity.
  - exact (value_formula self mn mx z Hmn Hmx).
  - cbn zeta. rewrite Hlog.
    cbn [num_add num_mul num_sub float_Number]. rewrite Hc. exact Heq.
Qed.

(** X12. On doubles, the test [f != of] that triggers the clipping
    warning is true exactly when the unclipped fraction is NaN, below 0
    or above 1; the call marks the object and sends the warning exactly
    when the test is true and the one-shot flag is not yet set. *)
Theorem X12_clip_test_on_doubles (self : Param float) (mn mx v : float) :
  _min_value self = PNum mn ->
  _max_value self = PNum mx ->
  let raw := ((if _log self then np_log v else v) - mn) / (mx - mn) in
  let outside := is_nan raw || (raw <? 0) || (1 <? raw) in
  clipping_changes self (CallFraction (PNum v) true) = outside
  /\ after self (CallFraction (PNum v) true)
     = (if outside && negb (_clipped_warning self)
        then warn_clipped self else self).
Proof.
  intros Hmn Hmx raw outside.
  assert (Htest : negb (np_clip raw 0 1 =? raw) = outside)
    by exact (float_clip_changes raw 0 1 unit_interval).
  split.
  - unfold clipping_changes. rewrite Hmn, Hmx. exact Htest.
  - cbn [after].
    pose proof (fraction_clip_formula self mn mx v Hmn Hmx) as Hcall.
    cbn zeta in Hcall.
    cbn [num_sub num_div num_zero num_one num_eqb float_Number] in Hcall.
    unfold zero, one in Hcall.
    fold raw in Hcall. rewrite Hcall, Htest. reflexivity.
Qed.

(** The object a constructor call without [log] builds from two bounds
    in strict order. *)
Lemma init_ordered_bounds (kw : init_kwargs float) (self : Param float)
  (a b : float) :
  __init__ kw = Ok self ->
  kw_min_value kw = PNum a -> kw_max_value kw = PNum b ->
  kw_log kw = false -> (a <? b) = true ->
  _min_value self = PNum a /\ _max_value self = PNum b
  /\ _log self = false.
Proof.
  intros Hinit Ha Hb Hlog Hlt. revert Hinit. unfold __init__.
  rewrite Ha, Hb, Hlog. cbn [min_max_same num_eqb float_Number].
  rewrite (proj1 (float_ltb_not_eqb _ _ Hlt)).
  intros [= <-]. repeat split; reflexivity.
Qed.

(** X14. From the constructor to [process], on doubles: a parameter
    constructed without [log] from bounds [a < b], asked by an input
    that does not hold its name and holds a numeric fraction [f],
    returns the single entry binding its name to [a], [b] or
    [f * (b - a) + a]; the number is NaN when the unclipped quantity is
    NaN and lies within [a, b] otherwise, in particular for every
    fraction of [0, 1] when the bounds are finite and [b - a] has not
    overflowed. *)
Theorem X14_process_on_doubles (kw : init_kwargs float) (self : Param float)
  (kwargs : dict (pyval float)) (a b f : float) :
  __init__ kw = Ok self ->
  kw_min_value kw = PNum a ->
  kw_max_value kw = PNum b ->
  kw_log kw = false ->
  (a <? b) = true ->
  contains kwargs (kw_name kw) = false ->
  get kwargs "fraction" = Some (PNum f) ->
  let u := f * (b - a) + a in
  exists v,
    process self kwargs = Ok [(kw_name kw, PNum v)]
    /\ (v = a \/ v = b \/ v = u)
    /\ (is_nan u = true -> is_nan v = true)
    /\ (is_nan u = false -> (a <=? v) = true /\ (v <=? b) = true)
    /\ ((0 <=? f) = true -> (f <=? 1) = true ->
        is_finite a = true -> is_finite b = true ->
        is_infinity (b - a) = false ->
        (a <=? v) = true /\ (v <=? b) = true).
Proof.
  intros Hinit Ha Hb Hlog Hlt Hin Hf u.
  destruct (init_attributes _ _ Hinit) as [Hname [_ [_ [_ [_ [Href _]]]]]].
  destruct (init_ordered_bounds kw self a b Hinit Ha Hb Hlog Hlt)
    as [Hmn [Hmx Hl]].
  pose proof (float_ltb_leb _ _ Hlt) as Hrange.
  exists (np_clip u a b). split; [ | split; [ | split; [ | split ] ] ].
  - rewrite process_paths, Hname, Hin.
    rewrite (proj2 (has_range_bounds self))
      by (exists a, b; split; assumption).
    unfold getitem. rewrite Hf. cbn [bind].
    rewrite (value_formula self a b f Hmn Hmx). cbn [bind].
    unfold reference_entry. rewrite Href, Hl. reflexivity.
  - destruct (is_nan u) eqn:Hu.
    + right. right. apply float_clip_nan; assumption.
    + destruct (float_clip_bounds u a b Hrange Hu) as [_ [_ Hc]]. exact Hc.
  - intros Hu. rewrite (float_clip_nan u a b Hrange Hu). exact Hu.
  - intros Hu.
    destruct (float_clip_bounds u a b Hrange Hu) as [Hlo [Hhi _]].
    split; assumption.
  - intros H0 H1 Hfa Hfb Hd.
    assert (Hu : is_nan u = false).
    { unfold u. rewrite (unclipped_nan a b f Hfa Hfb)
        by (apply unit_fraction_finite; assumption).
      rewrite Hd. apply andb_false_r. }
    destruct (float_clip_bounds u a b Hrange Hu) as [Hlo [Hhi _]].
    split; assumption.
Qed.

End ParameterDoubles.

(** *** The parameter class at concrete doubles *)

Section DoubleRuns.
Import parameter run_parameter run_double.
Local Open Scope float_scope.

(** C4, as stated, fails on doubles: the parameter with the range
    [-1e308, 1e308] returns NaN for the fraction 0, and NaN lies within
    no bounds. *)
Lemma C4_value_nan_on_overflowing_range :
  exists self,
    __init__ wide_kwargs = Ok self
    /\ _min_value self = PNum (-1e308)
    /\ _max_value self = PNum 1e308
    /\ _log self = false
    /\ (-1e308 <=? 1e308) = true
    /\ (0 <=? 0) = true /\ (0 <=? 1) = true
    /\ value self (PNum 0) = Ok nan
    /\ (-1e308 <=? nan) = false
    /\ (nan <=? 1e308) = false.
Proof.
  eexists. split; [ vm_compute; reflexivity | ].
  repeat split; vm_compute; reflexivity.
Qed.

(** The amended C4 at the range [0, 10] and the fraction 0.5: the value
    is 5, within the bounds. *)
Lemma C4_value_on_doubles_witness :
  value linear_param (PNum 0.5) = Ok 5
  /\ (0 <=? 5) = true /\ (5 <=? 10) = true
  /\ is_nan (0.5 * (10 - 0) + 0) = false.
Proof.
  destruct (C4_value_clipped_on_doubles linear_param 0 10 0.5
              eq_refl eq_refl eq_refl) as [Hvalue [_ [_ [Hin [Hnan _]]]]].
  split; [ exact Hvalue | ].
  split; [ exact (proj1 (Hin eq_refl)) | ].
  split; [ exact (proj2 (Hin eq_refl)) | ].
  exact (Hnan eq_refl eq_refl eq_refl eq_refl).
Defined.



(** C10, as stated, fails on doubles: on the log parameter with the
    bounds 1 and 2, [fraction(-5.0)] is NaN with and without clipping,
    yet the call with clipping sends the warning; the later
    [fraction(20.0, clip=True)], whose result clipping does change, from
    above 1 to 1, sends none. *)
Lemma C10_warning_at_nan_fraction :
  exists p0 p1 f1,
    __init__ log_double_kwargs = Ok p0
    /\ clip_warnings p0 = 0%nat
    /\ fraction p0 (PNum (-5)) false = Ok (nan, p0)
    /\ fraction p0 (PNum (-5)) true = Ok (nan, p1)
    /\ clip_warnings p1 = 1%nat
    /\ fraction p1 (PNum 20) false = Ok (f1, p1)
    /\ (1 <? f1) = true
    /\ fraction p1 (PNum 20) true = Ok (1, p1)
    /\ clip_warnings (after_all p0 nan_then_clipped) = 1%nat.
Proof.
  eexists. eexists. eexists.
  split; [ vm_compute; reflexivity | ].
  split; [ vm_compute; reflexivity | ].
  split; [ vm_compute; reflexivity | ].
  split; [ vm_compute; reflexivity | ].
  split; [ vm_compute; reflexivity | ].
  split; [ vm_compute; reflexivity | ].
  repeat split; vm_compute; reflexivity.
Qed.

(** The amended C10 at three clipped calls in a row on the parameter
    with the range [0, 10]: the first call sends the warning, and one
    warning is all the printer has received after the three calls. *)
Lemma C10_clip_warning_once_witness :
  (clip_warnings (after_all linear_param clipped_calls) <= 1)%nat
  /\ clip_warnings (after linear_param (CallFraction (PNum 20) true))
     = S (clip_warnings linear_param).
Proof.
  destruct (C10_clip_warning_once linear_kwargs linear_param
              clipped_calls init_linear) as [Hbound Hcalls].
  split; [ exact Hbound | ].
  apply (Hcalls 0%nat (CallFraction (PNum 20) true) eq_refl).
  split.
  - reflexivity.
  - intros j c' Hj. inversion Hj.
Defined.

(** X9 at the range [-1e308, 1e308]: 1e308 for the fraction 0.25, NaN
    for the fraction 0. *)
Lemma X9_overflowing_range_witness :
  value wide_double (PNum 0.25) = Ok 1e308
  /\ value wide_double (PNum 0) = Ok nan.
Proof.
  split.
  - exact (proj1 (X9_overflowing_range wide_double (-1e308) 1e308 0.25
                    eq_refl eq_refl eq_refl eq_refl eq_refl eq_refl)
             eq_refl).
  - exact (proj2 (proj2 (X9_overflowing_range wide_double (-1e308) 1e308 0
                           eq_refl eq_refl eq_refl eq_refl eq_refl eq_refl))
             eq_refl).
Defined.

(** X10 at the value 20 and the range [0, 10]. *)
Lemma X10_fraction_clipped_witness :
  exists f self',
    fraction linear_param (PNum 20) true = Ok (f, self')
    /\ (0 <=? f) = true /\ (f <=? 1) = true.
Proof.
  destruct (X10_fraction_clipped_on_doubles linear_param 0 10 20
              eq_refl eq_refl) as [f [self' [Hcall [_ [Hin _]]]]].
  exists f, self'. split; [ exact Hcall | ].
  destruct (Hin eq_refl) as [H0 [H1 _]]. split; assumption.
Defined.

(** X11 at the range [0, 10]. *)
Lemma X11_lower_bound_witness :
  exists z v,
    fraction linear_param (PNum 0) true = Ok (z, linear_param)
    /\ is_zero z = true
    /\ value linear_param (PNum z) = Ok v
    /\ (v =? 0) = true.
Proof.
  exact (X11_lower_bound_round_trip linear_param 0 10 true
           eq_refl eq_refl eq_refl eq_refl eq_refl eq_refl eq_refl eq_refl).
Defined.

(** X12 at the value 20 and the range [0, 10]. *)
Lemma X12_clip_test_witness :
  clipping_changes linear_param (CallFraction (PNum 20) true) = true
  /\ after linear_param (CallFraction (PNum 20) true)
     = warn_clipped linear_param.
Proof.
  exact (X12_clip_test_on_doubles linear_param 0 10 20 eq_refl eq_refl).
Defined.

(** X13 at the parameter with the range [0, 10] after two calls. *)
Lemma X13_bounds_witness :
  exists a b,
    kw_min_value linear_kwargs = PNum a
    /\ kw_max_value linear_kwargs = PNum b
    /\ (a =? b) = false
    /\ 0 = a /\ 10 = b.
Proof.
  destruct (X13_bounds_from_constructor linear_kwargs linear_param
              two_calls 0 10 init_linear eq_refl eq_refl)
    as [a [b [Ha [Hb [Hne [Hlin _]]]]]].
  exists a, b. repeat split; try assumption; apply (Hlin eq_refl).
Defined.

(** X14 at the range [0, 10] and the fraction 0.5. *)
Lemma X14_process_on_doubles_witness :
  exists v,
    process linear_param [("fraction"%string, PNum 0.5)]
    = Ok [("x"%string, PNum v)]
    /\ (0 <=? v) = true /\ (v <=? 10) = true.
Proof.
  destruct (X14_process_on_doubles linear_kwargs linear_param
              [("fraction"%string, PNum 0.5)] 0 10 0.5
              init_linear eq_refl eq_refl eq_refl eq_refl eq_refl
              eq_refl) as [v [Hcall [_ [_ [_ Hin]]]]].
  exists v. split; [ exact Hcall | ].
  exact (Hin eq_refl eq_refl eq_refl eq_refl eq_refl).
Defined.

End DoubleRuns.

(* ------------------------------------------------------------------ *)
(** ** Further properties of the blackbody class *)

Section BlackbodyMore.
Import blackbody.
Local Open Scope float_scope.

Variables C_CONST FLUX_CONST X_CONST ANGSTROM_CGS : float.
Variable ne_exp : float -> float.
Variable add_to_existing_seds : list pyseq -> process_kwargs -> list pyseq.

Local Abbreviation epoch :=
  (epoch C_CONST FLUX_CONST X_CONST ANGSTROM_CGS ne_exp).
Local Abbreviation for_loop :=
  (for_loop C_CONST FLUX_CONST X_CONST ANGSTROM_CGS ne_exp).
Local Abbreviation fresh_seds :=
  (fresh_seds C_CONST FLUX_CONST X_CONST ANGSTROM_CGS ne_exp).
Local Abbreviation process :=
  (process C_CONST FLUX_CONST X_CONST ANGSTROM_CGS ne_exp
     add_to_existing_seds).
Local Abbreviation planck := (planck FLUX_CONST X_CONST ne_exp).

Lemma enumerate_length (A : Type) (l : list A) :
  List.length (enumerate l) = List.length l.
Proof.
  unfold enumerate. rewrite length_combine, length_seq. apply Nat.min_id.
Qed.

(** The items of [enumerate(l)] are the elements of [l] with their
    positions. *)
Lemma enumerate_nth_error_inv (A : Type) (l : list A) (i j : nat) (a : A) :
  nth_error (enumerate l) i = Some (j, a) ->
  j = i /\ nth_error l i = Some a.
Proof.
  intros Hi.
  assert (Hlt : (i < List.length l)%nat).
  { rewrite <- enumerate_length. apply nth_error_Some. rewrite Hi.
    discriminate. }
  destruct (nth_error l i) as [x | ] eqn:Hx;
    [ | apply nth_error_None in Hx; lia ].
  rewrite (enumerate_nth_error _ _ _ _ Hx) in Hi.
  injection Hi as <- <-. split; reflexivity.
Qed.

(** X15. When the loop of [process] completes it has built one spectrum
    per epoch, none for an empty batch. *)
Theorem X15_one_spectrum_per_epoch (self : Blackbody)
  (kwargs : process_kwargs) (st' : loop_state) :
  fresh_seds self kwargs = Ok st' ->
  List.length (seds st') = List.length (luminosities kwargs)
  /\ (luminosities kwargs = [] -> seds st' = [] /\ ne_calls st' = []).
Proof.
  unfold blackbody.fresh_seds. intros Hrun. split.
  - destruct (for_loop_extends _ _ _ _ _ _ _ _ _ _ Hrun) as [more [-> Hlen]].
    cbn [seds app store_inputs _luminosities] in *.
    rewrite Hlen. apply enumerate_length.
  - intros Hnone. cbn [store_inputs _luminosities] in Hrun.
    rewrite Hnone in Hrun. cbn in Hrun. injection Hrun as <-.
    split; reflexivity.
Qed.

(** X16. [process] keeps no state between calls: the object after a
    call holds the same wavelength grids, which are the ones the call
    returns, and a later call on it gives what the same call gives on
    the object before. *)
Theorem X16_no_state_between_calls (self self0 : Blackbody)
  (kwargs0 kwargs : process_kwargs) (out0 : output) :
  process self kwargs0 = Ok (out0, self0) ->
  _sample_wavelengths self0 = _sample_wavelengths self
  /\ out_sample_wavelengths out0 = _sample_wavelengths self
  /\ process self0 kwargs = process self kwargs.
Proof.
  unfold blackbody.process.
  destruct (fresh_seds self kwargs0) as [st0 | ]; [ | discriminate ].
  cbn [bind]. intros [= <- <-].
  split; [ reflexivity | split; reflexivity ].
Qed.

(** An epoch that [epoch_completes] rejects raises, from every state. *)
Lemma epoch_not_completes_raises (self : Blackbody)
  (kwargs : process_kwargs) (li : nat) (lum : float) :
  epoch_completes self kwargs li lum = false ->
  forall st,
    raises (epoch (store_inputs self kwargs) (1 + redshift kwargs) st li lum)
    = true.
Proof.
  unfold epoch_completes, blackbody.epoch, index.
  cbn [store_inputs _radius_phot _temperature_phot _band_indices
         _frequencies _sample_wavelengths].
  destruct (nth_error (radiusphot kwargs) li); [ | reflexivity ].
  destruct (nth_error (temperaturephot kwargs) li); [ | reflexivity ].
  destruct (nth_error (all_band_indices kwargs) li) as [bi | ];
    [ | reflexivity ].
  cbn [bind]. destruct (bi >=? 0)%Z eqn:Hbi.
  - destruct (nth_error (_sample_wavelengths self) (Z.to_nat bi));
      [ discriminate | ].
    intros _ st. destruct (lum =? 0); reflexivity.
  - intros -> st.
    assert (Hneg : (bi <? 0)%Z = true).
    { rewrite Z.geb_leb in Hbi. apply Z.leb_gt in Hbi.
      apply Z.ltb_lt. exact Hbi. }
    destruct (nth_error (all_frequencies kwargs) li) as [[ | nu] | ];
      cbn [bind times_zp1]; try reflexivity.
    rewrite Hneg. reflexivity.
Qed.

Lemma forallb_false_witness (A : Type) (f : A -> bool) (l : list A) :
  forallb f l = false -> exists i x, nth_error l i = Some x /\ f x = false.
Proof.
  induction l as [ | a l IH ]; [ discriminate | ].
  cbn [forallb]. destruct (f a) eqn:Hfa; cbn [andb].
  - intros Hrest. destruct (IH Hrest) as [i [x [Hi Hx]]].
    exists (S i), x. split; assumption.
  - intros _. exists 0%nat, a. split; [ reflexivity | exact Hfa ].
Qed.

(** The loop raises exactly when some epoch is rejected by
    [epoch_completes]. *)
Lemma fresh_seds_raises (self : Blackbody) (kwargs : process_kwargs) :
  raises (fresh_seds self kwargs) = negb (all_complete self kwargs).
Proof.
  destruct (all_complete self kwargs) eqn:Hall; cbn [negb].
  - destruct (fresh_seds_completes C_CONST FLUX_CONST X_CONST ANGSTROM_CGS
                ne_exp _ _ Hall) as [st' ->]. reflexivity.
  - unfold all_complete in Hall.
    apply forallb_false_witness in Hall.
    destruct Hall as [i [[li lum] [Hi Hbad]]]. cbn [fst snd] in Hbad.
    unfold blackbody.fresh_seds.
    apply (for_loop_raises C_CONST FLUX_CONST X_CONST ANGSTROM_CGS ne_exp
             _ _ _ _ i li lum Hi).
    apply epoch_not_completes_raises. exact Hbad.
Qed.

(** X17. The loop of [process] completes exactly when every epoch has
    its radius, temperature and band index and is either band-indexed
    with a cached grid or frequency-indexed with zero luminosity; in
    every other case [process] raises. *)
Theorem X17_completes_iff_all_complete (self : Blackbody)
  (kwargs : process_kwargs) :
  raises (fresh_seds self kwargs) = negb (all_complete self kwargs)
  /\ raises (process self kwargs) = negb (all_complete self kwargs).
Proof.
  split; [ apply fresh_seds_raises | ].
  unfold blackbody.process. rewrite <- fresh_seds_raises.
  destruct (fresh_seds self kwargs); reflexivity.
Qed.

(** What one iteration does to the flag and to the evaluator's calls. *)
Lemma epoch_calls (self : Blackbody) (zp1 : float) (st st1 : loop_state)
  (li : nat) (lum : float) :
  epoch self zp1 st li lum = Ok st1 ->
  if lum =? 0 then evaled st1 = evaled st /\ ne_calls st1 = ne_calls st
  else evaled st1 = true
       /\ ne_calls st1
          = ne_calls st ++ [if evaled st then ReEvaluate else Evaluate].
Proof.
  unfold blackbody.epoch.
  destruct (index (_radius_phot self) li); [ | discriminate ].
  destruct (index (_temperature_phot self) li); [ | discriminate ].
  destruct (index (_band_indices self) li) as [bi | ]; [ | discriminate ].
  cbn [bind].
  destruct (lum =? 0).
  - destruct (bi >=? 0)%Z.
    + destruct (index (_sample_wavelengths self) (Z.to_nat bi));
        [ | discriminate ].
      cbn [bind]. intros [= <-]. split; reflexivity.
    + intros [= <-]. split; reflexivity.
  - match goal with
    | |- bind ?c _ = _ -> _ => destruct c; [ | discriminate ]
    end.
    cbn [bind].
    match goal with
    | |- bind ?c _ = _ -> _ => destruct c; [ | discriminate ]
    end.
    cbn [bind]. intros [= <-]. split; reflexivity.
Qed.

(** The calls of the evaluator over [n] epochs with emission, from a
    loop state whose flag is [evaled]. *)
Lemma for_loop_calls (self : Blackbody) (zp1 : float)
  (items : list (nat * float)) :
  forall (st st' : loop_state),
    for_loop self zp1 st items = Ok st' ->
    let n := List.length
               (filter (fun item => negb (snd item =? 0)) items) in
    ne_calls st'
    = ne_calls st
        ++ (if evaled st then repeat ReEvaluate n
            else match n with
                 | O => []
                 | S k => Evaluate :: repeat ReEvaluate k
                 end)
    /\ evaled st' = evaled st || negb (Nat.eqb n 0).
Proof.
  induction items as [ | [li lum] items IH ]; intros st st' Hrun.
  - cbn in Hrun. injection Hrun as <-. cbn.
    destruct (evaled st); rewrite app_nil_r, ?orb_false_r; split; reflexivity.
  - cbn [blackbody.for_loop] in Hrun.
    destruct (epoch self zp1 st li lum) as [st1 | ] eqn:Hstep;
      [ | discriminate Hrun ].
    cbn [bind] in Hrun.
    pose proof (epoch_calls _ _ _ _ _ _ Hstep) as Hcalls.
    destruct (IH _ _ Hrun) as [IHc IHe].
    cbn [filter snd]. destruct (lum =? 0); cbn [negb].
    + destruct Hcalls as [He Hc]. rewrite He, Hc in *. split; assumption.
    + destruct Hcalls as [He Hc]. rewrite He, Hc in *. cbn [List.length].
      rewrite IHc, IHe, <- app_assoc. cbn [app Nat.eqb negb].
      rewrite orb_true_r. split; [ | reflexivity ].
      destruct (evaled st); reflexivity.
Qed.

Lemma filter_enumerate_length (l : list float) (p : float -> bool) :
  List.length (filter (fun item => p (snd item)) (enumerate l))
  = List.length (filter p l).
Proof.
  unfold enumerate. generalize 0%nat.
  induction l as [ | x l IH ]; intros k; [ reflexivity | ].
  cbn [List.length seq combine filter snd].
  destruct (p x); cbn [List.length]; rewrite IH; reflexivity.
Qed.

(** X18. The expression is compiled once per batch: over a completed
    call, [ne.evaluate] is called for the first epoch with nonzero
    luminosity and [ne.re_evaluate] for each later one, and no call is
    made for an epoch with zero luminosity. *)
Theorem X18_expression_compiled_once (self : Blackbody)
  (kwargs : process_kwargs) (st' : loop_state) :
  fresh_seds self kwargs = Ok st' ->
  let n := List.length
             (filter (fun lum => negb (lum =? 0)) (luminosities kwargs)) in
  ne_calls st'
  = match n with
    | O => []
    | S k => Evaluate :: repeat ReEvaluate k
    end
  /\ evaled st' = negb (Nat.eqb n 0).
Proof.
  intros Hrun n. unfold blackbody.fresh_seds in Hrun.
  destruct (for_loop_calls _ _ _ _ _ Hrun) as [Hc He].
  cbn [store_inputs _luminosities evaled ne_calls app orb] in Hc, He.
  rewrite (filter_enumerate_length (luminosities kwargs)
             (fun lum => negb (lum =? 0))) in Hc, He.
  fold n in Hc, He. split; assumption.
Qed.

(** A completed loop has accepted every epoch. *)
Lemma completed_epoch (self : Blackbody) (kwargs : process_kwargs)
  (st' : loop_state) (li : nat) (lum : float) :
  fresh_seds self kwargs = Ok st' ->
  nth_error (luminosities kwargs) li = Some lum ->
  epoch_completes self kwargs li lum = true.
Proof.
  intros Hrun Hlum.
  pose proof (fresh_seds_raises self kwargs) as Hraises.
  rewrite Hrun in Hraises. cbn [raises] in Hraises.
  apply (f_equal negb) in Hraises. rewrite negb_involutive in Hraises.
  cbn [negb] in Hraises. symmetry in Hraises.
  unfold all_complete in Hraises.
  apply (proj1 (forallb_forall _ _) Hraises (li, lum)).
  apply (nth_error_In _ li). apply enumerate_nth_error. exact Hlum.
Qed.

(** X19. In a completed call the spectrum of each epoch has the shape
    of its selector, at the position of the epoch: an array as long as
    the wavelength grid of its band for a band-indexed epoch, the list
    [[0.0]] for a frequency-indexed one, whose luminosity is then zero. *)
Theorem X19_spectrum_shapes (self : Blackbody) (kwargs : process_kwargs)
  (st' : loop_state) (li : nat) (lum : float) (bi : Z) :
  fresh_seds self kwargs = Ok st' ->
  nth_error (luminosities kwargs) li = Some lum ->
  nth_error (all_band_indices kwargs) li = Some bi ->
  ((0 <= bi)%Z ->
   exists grid a,
     nth_error (_sample_wavelengths self) (Z.to_nat bi) = Some grid
     /\ nth_error (seds st') li = Some (NdArray a)
     /\ List.length a = List.length grid)
  /\ ((bi < 0)%Z ->
      (lum =? 0) = true
      /\ nth_error (seds st') li = Some (PyList [0])).
Proof.
  intros Hrun Hlum Hbi.
  pose proof (completed_epoch _ _ _ _ _ Hrun Hlum) as Hok.
  unfold epoch_completes in Hok. rewrite Hbi in Hok.
  destruct (nth_error (radiusphot kwargs) li) as [R | ] eqn:HR;
    [ | discriminate Hok ].
  destruct (nth_error (temperaturephot kwargs) li) as [T | ] eqn:HT;
    [ | discriminate Hok ].
  split; intros Hsign.
  - rewrite (geb0_true bi Hsign) in Hok.
    destruct (nth_error (_sample_wavelengths self) (Z.to_nat bi))
      as [grid | ] eqn:Hgrid; [ | discriminate Hok ].
    set (sed := if lum =? 0 then map (fun _ => 0) grid
                else map nan_to_num
                       (map (planck R T)
                          (map (fun w => w * ANGSTROM_CGS
                                         / (1 + redshift kwargs)) grid))).
    exists grid, sed. split; [ reflexivity | ]. split.
    + apply (fresh_seds_nth C_CONST FLUX_CONST X_CONST ANGSTROM_CGS ne_exp
               self kwargs st' li lum _ Hrun Hlum).
      intros st0 st1. unfold blackbody.epoch, index.
      cbn [store_inputs _radius_phot _temperature_phot _band_indices
             _frequencies _sample_wavelengths].
      rewrite HR, HT, Hbi. cbn [bind]. rewrite (geb0_true bi Hsign), Hgrid.
      rewrite (proj2 (Z.ltb_ge bi 0)) by lia. subst sed.
      destruct (lum =? 0); cbn [bind]; intros [= <-]; reflexivity.
    + subst sed. destruct (lum =? 0); rewrite ?length_map; reflexivity.
  - rewrite (geb0_false bi Hsign) in Hok. split; [ exact Hok | ].
    apply (fresh_seds_nth C_CONST FLUX_CONST X_CONST ANGSTROM_CGS ne_exp
             self kwargs st' li lum _ Hrun Hlum).
    intros st0 st1. unfold blackbody.epoch, index.
    cbn [store_inputs _radius_phot _temperature_phot _band_indices
           _frequencies _sample_wavelengths].
    rewrite HR, HT, Hbi. cbn [bind]. rewrite (geb0_false bi Hsign), Hok.
    intros [= <-]. reflexivity.
Qed.

(** The loop stops at its first iteration that raises. *)
Lemma for_loop_first_failure (self : Blackbody) (zp1 : float) (e : exn)
  (items : list (nat * float)) :
  forall (st : loop_state) (i li : nat) (lum : float),
    nth_error items i = Some (li, lum) ->
    (forall j item,
        (j < i)%nat -> nth_error items j = Some item ->
        forall st0, exists st1,
          epoch self zp1 st0 (fst item) (snd item) = Ok st1) ->
    (forall st0, epoch self zp1 st0 li lum = Raise e) ->
    for_loop self zp1 st items = Raise e.
Proof.
  induction items as [ | [li0 lum0] items IH ];
    intros st i li lum Hi Hbefore Hbad.
  - destruct i; discriminate Hi.
  - cbn [blackbody.for_loop]. destruct i as [ | i ]; cbn in Hi.
    + injection Hi as -> ->. rewrite Hbad. reflexivity.
    + destruct (Hbefore 0%nat (li0, lum0) (Nat.lt_0_succ i) eq_refl st)
        as [st1 Hstep].
      cbn [fst snd] in Hstep. rewrite Hstep. cbn [bind].
      apply (IH st1 i li lum Hi); [ | exact Hbad ].
      intros j item Hj Hitem. apply (Hbefore (S j) item); [ lia | exact Hitem ].
Qed.

(** The exception of the first epoch that does not complete is the one
    of the loop. *)
Lemma fresh_seds_first_failure (self : Blackbody) (kwargs : process_kwargs)
  (e : exn) (li : nat) (lum : float) :
  nth_error (luminosities kwargs) li = Some lum ->
  (forall j lumj,
      (j < li)%nat -> nth_error (luminosities kwargs) j = Some lumj ->
      epoch_completes self kwargs j lumj = true) ->
  (forall st0,
      epoch (store_inputs self kwargs) (1 + redshift kwargs) st0 li lum
      = Raise e) ->
  fresh_seds self kwargs = Raise e.
Proof.
  intros Hlum Hbefore Hbad. unfold blackbody.fresh_seds.
  apply (for_loop_first_failure _ _ e _ _ li li lum).
  - apply enumerate_nth_error. exact Hlum.
  - intros j [lj mj] Hj Hitem.
    apply enumerate_nth_error_inv in Hitem. destruct Hitem as [-> Hmj].
    cbn [fst snd].
    apply (epoch_completes_ok C_CONST FLUX_CONST X_CONST ANGSTROM_CGS ne_exp).
    exact (Hbefore j mj Hj Hmj).
  - exact Hbad.
Qed.

(** X20. Which exception [process] raises is decided by the first epoch
    that does not complete: [IndexError] when that epoch lacks a radius,
    a temperature, a band index, the grid of its band or, being
    frequency-indexed with nonzero luminosity, its frequency;
    [TypeError] when it is frequency-indexed with nonzero luminosity
    and none of these is missing. *)
Theorem X20_first_failing_epoch_decides (self : Blackbody)
  (kwargs : process_kwargs) (li : nat) (lum : float) :
  nth_error (luminosities kwargs) li = Some lum ->
  (forall j lumj,
      (j < li)%nat -> nth_error (luminosities kwargs) j = Some lumj ->
      epoch_completes self kwargs j lumj = true) ->
  (nth_error (radiusphot kwargs) li = None
   \/ nth_error (temperaturephot kwargs) li = None
   \/ nth_error (all_band_indices kwargs) li = None
   \/ (exists bi,
         nth_error (all_band_indices kwargs) li = Some bi /\ (0 <= bi)%Z
         /\ nth_error (_sample_wavelengths self) (Z.to_nat bi) = None)
   \/ (exists bi,
         nth_error (all_band_indices kwargs) li = Some bi /\ (bi < 0)%Z
         /\ (lum =? 0) = false
         /\ nth_error (all_frequencies kwargs) li = None) ->
   fresh_seds self kwargs = Raise IndexError)
  /\ ((exists radius_phot temperature_phot bi nu,
         nth_error (radiusphot kwargs) li = Some radius_phot
         /\ nth_error (temperaturephot kwargs) li = Some temperature_phot
         /\ nth_error (all_band_indices kwargs) li = Some bi /\ (bi < 0)%Z
         /\ (lum =? 0) = false
         /\ nth_error (all_frequencies kwargs) li = Some nu) ->
      fresh_seds self kwargs = Raise TypeError).
Proof.
  intros Hlum Hbefore. split.
  - intros Hmissing.
    apply (fresh_seds_first_failure self kwargs IndexError li lum Hlum Hbefore).
    intros st0. unfold blackbody.epoch, index.
    cbn [store_inputs _radius_phot _temperature_phot _band_indices
           _frequencies _sample_wavelengths].
    destruct (nth_error (radiusphot kwargs) li) as [R | ]; [ | reflexivity ].
    destruct (nth_error (temperaturephot kwargs) li) as [T | ];
      [ | reflexivity ].
    destruct (nth_error (all_band_indices kwargs) li) as [bi | ];
      [ | reflexivity ].
    cbn [bind].
    destruct Hmissing as [Hm | [Hm | [Hm | [Hm | Hm]]]]; try discriminate Hm.
    + destruct Hm as [bi' [[= <-] [Hsign Hgrid]]].
      rewrite (geb0_true bi Hsign), Hgrid.
      destruct (lum =? 0); reflexivity.
    + destruct Hm as [bi' [[= <-] [Hsign [Hnz Hnu]]]].
      rewrite (geb0_false bi Hsign), Hnz, Hnu. reflexivity.
  - intros [R [T [bi [nu [HR [HT [Hbi [Hsign [Hnz Hnu]]]]]]]]].
    apply (fresh_seds_first_failure self kwargs TypeError li lum Hlum Hbefore).
    intros st0. unfold blackbody.epoch, index.
    cbn [store_inputs _radius_phot _temperature_phot _band_indices
           _frequencies _sample_wavelengths].
    rewrite HR, HT, Hbi, Hnu. cbn [bind].
    rewrite (geb0_false bi Hsign), Hnz.
    rewrite (proj2 (Z.ltb_lt bi 0)) by lia.
    destruct nu; reflexivity.
Qed.

End BlackbodyMore.

(* ------------------------------------------------------------------ *)
(** ** The further properties at concrete inputs *)

Section MoreRuns.
Import parameter run_parameter run_more.
Local Open Scope float_scope.

Lemma init_fixed :
  __init__ fixed_kwargs
  = Ok {| _name := "x";
          _printer := [];
          _max_value := PNone;
          _min_value := PNone;
          _value := PNum 7;
          _log := false;
          _latex := "x";
          _derived_keys := ["y"%string; "reference_x"%string];
          _reference_value := PNone;
          _clipped_warning := false |}.
Proof. reflexivity. Qed.

(** X1 at the parameter with the range [0, 10] after three clipped
    calls. *)
Lemma X1_identity_witness :
  _name (after_all linear_param clipped_calls) = "x"%string
  /\ get_derived_keys (after_all linear_param clipped_calls)
     = ["reference_x"%string].
Proof.
  destruct (X1_identity_fixed_at_construction linear_kwargs linear_param
              clipped_calls init_linear) as [Hname [_ [_ [Hkeys _]]]].
  split; [ exact Hname | ]. rewrite Hkeys, Hname. reflexivity.
Defined.

(** X3 at the parameter with the range [0, 10], fixed to 3. *)
Lemma X3_fix_value_witness :
  process (fix_value linear_param (PNum 3))
    [("fraction"%string, PNum (1 / 2))]
  = Ok [("x"%string, PNum 3)]
  /\ value (fix_value linear_param (PNum 3)) (PNum (1 / 2))
     = Raise TypeError.
Proof.
  destruct (X3_fix_value_fixes linear_param (PNum 3)
              [("fraction"%string, PNum (1 / 2))])
    as [_ [Hvalue [_ [_ Hprocess]]]].
  split; [ exact (Hprocess eq_refl) | apply Hvalue ].
Defined.

(** X5 at the parameter with the range [0, 10] and an empty input. *)
Lemma X5_missing_fraction_witness :
  process linear_param [] = Raise KeyError.
Proof.
  exact (proj1 (X5_process_fraction_errors linear_param []
                  eq_refl eq_refl) eq_refl).
Defined.

(** X6 at a [value] call and a request: the bounds are kept. *)
Lemma X6_frame_witness :
  _min_value (after_all linear_param quiet_calls) = PNum 0
  /\ _max_value (after_all linear_param quiet_calls) = PNum 10.
Proof.
  assert (Hcalls : Forall (fun c : call float => forall v, c <> CallFixValue v)
                     quiet_calls).
  { repeat constructor; intros v; discriminate. }
  destruct (proj1 (X6_frame quiet_calls linear_param) Hcalls)
    as [Hmn [Hmx _]].
  split; assumption.
Defined.

(** X7 at a request for 1, a request for 2 and two empty requests. *)
Lemma X7_last_request_witness :
  _reference_value
    (after_all fixed_param
       (map CallReceiveRequests
          ([[("a"%string, PNum 1)]]
             ++ [("b"%string, PNum 2); ("c"%string, PNum 3)] :: [[]; []])))
  = PNum 2.
Proof.
  rewrite (X7_last_nonempty_request_wins fixed_param
             [[("a"%string, PNum 1)]] [[]; []] "b" (PNum 2)
             [("c"%string, PNum 3)]).
  - reflexivity.
  - repeat constructor.
Defined.

(** X8 at [Parameter(name='x', value=7)]. *)
Lemma X8_constructed_fixed_witness :
  exists self,
    __init__ fixed_kwargs = Ok self
    /\ process self [("fraction"%string, PNum (1 / 2))]
       = Ok [("x"%string, PNum 7)].
Proof.
  eexists. split; [ exact init_fixed | ].
  apply (X8_constructed_fixed_process fixed_kwargs _
           [("fraction"%string, PNum (1 / 2))] init_fixed);
    reflexivity.
Defined.

End MoreRuns.

Section MoreBlackbodyRuns.
Import blackbody run_more.
Local Open Scope float_scope.

Local Abbreviation fresh_seds :=
  (fresh_seds run.C_CONST run.FLUX_CONST run.X_CONST run.ANGSTROM_CGS
     libm.exp_double).

Lemma mixed_epochs_complete :
  exists st, fresh_seds run.one_band mixed_epochs = Ok st.
Proof.
  apply fresh_seds_completes. reflexivity.
Qed.

(** X15 at the three epochs of [mixed_epochs]. *)
Lemma X15_one_spectrum_per_epoch_witness :
  exists st,
    fresh_seds run.one_band mixed_epochs = Ok st
    /\ List.length (seds st) = 3%nat.
Proof.
  destruct mixed_epochs_complete as [st Hst].
  exists st. split; [ exact Hst | ].
  exact (proj1 (X15_one_spectrum_per_epoch run.C_CONST run.FLUX_CONST
                  run.X_CONST run.ANGSTROM_CGS libm.exp_double
                  run.one_band mixed_epochs st Hst)).
Defined.

(** X18 at [mixed_epochs]: one [evaluate], then one [re_evaluate]. *)
Lemma X18_expression_compiled_once_witness :
  exists st,
    fresh_seds run.one_band mixed_epochs = Ok st
    /\ ne_calls st = [Evaluate; ReEvaluate].
Proof.
  destruct mixed_epochs_complete as [st Hst].
  exists st. split; [ exact Hst | ].
  exact (proj1 (X18_expression_compiled_once run.C_CONST run.FLUX_CONST
                  run.X_CONST run.ANGSTROM_CGS libm.exp_double
                  run.one_band mixed_epochs st Hst)).
Defined.

(** X19 at the second and third epochs of [mixed_epochs]. *)
Lemma X19_spectrum_shapes_witness :
  exists st a,
    fresh_seds run.one_band mixed_epochs = Ok st
    /\ nth_error (seds st) 1 = Some (PyList [0])
    /\ nth_error (seds st) 2 = Some (NdArray a)
    /\ List.length a = 3%nat.
Proof.
  destruct mixed_epochs_complete as [st Hst].
  destruct (X19_spectrum_shapes run.C_CONST run.FLUX_CONST run.X_CONST
              run.ANGSTROM_CGS libm.exp_double run.one_band mixed_epochs
              st 1 0 (-1) Hst eq_refl eq_refl) as [_ Hfreq].
  destruct (X19_spectrum_shapes run.C_CONST run.FLUX_CONST run.X_CONST
              run.ANGSTROM_CGS libm.exp_double run.one_band mixed_epochs
              st 2 2e43 0 Hst eq_refl eq_refl) as [Hband _].
  destruct (Hband (Z.le_refl 0)) as [grid [a [Hgrid [Hnth Hlen]]]].
  injection Hgrid as <-.
  exists st, a. split; [ exact Hst | ].
  split; [ exact (proj2 (Hfreq eq_refl)) | split; assumption ].
Defined.

(** X16 at two successive calls, the merge returning the fresh spectra. *)
Lemma X16_no_state_witness :
  exists out0 self0,
    process run.C_CONST run.FLUX_CONST run.X_CONST run.ANGSTROM_CGS
      libm.exp_double (fun seds _ => seds) run.one_band mixed_epochs
    = Ok (out0, self0)
    /\ process run.C_CONST run.FLUX_CONST run.X_CONST run.ANGSTROM_CGS
         libm.exp_double (fun seds _ => seds) self0 run.dark_epochs
       = process run.C_CONST run.FLUX_CONST run.X_CONST run.ANGSTROM_CGS
           libm.exp_double (fun seds _ => seds) run.one_band
           run.dark_epochs.
Proof.
  assert (Hcall : exists out0 self0,
             process run.C_CONST run.FLUX_CONST run.X_CONST
               run.ANGSTROM_CGS libm.exp_double (fun seds _ => seds)
               run.one_band mixed_epochs = Ok (out0, self0)).
  { unfold blackbody.process.
    destruct mixed_epochs_complete as [st ->].
    eexists; eexists; reflexivity. }
  destruct Hcall as [out0 [self0 Hcall]].
  exists out0, self0. split; [ exact Hcall | ].
  exact (proj2 (proj2 (X16_no_state_between_calls run.C_CONST
                         run.FLUX_CONST run.X_CONST run.ANGSTROM_CGS
                         libm.exp_double (fun seds _ => seds) run.one_band
                         self0 mixed_epochs run.dark_epochs out0 Hcall))).
Defined.

(** X20 at a batch whose second epoch has no radius, and at a
    frequency-indexed epoch with emission. *)
Lemma X20_first_failing_epoch_witness :
  fresh_seds run.one_band short_radius = Raise IndexError
  /\ fresh_seds run.one_band run.radio_epoch = Raise TypeError.
Proof.
  split.
  - assert (Hbefore : forall j lumj,
               (j < 1)%nat ->
               nth_error (luminosities short_radius) j = Some lumj ->
               epoch_completes run.one_band short_radius j lumj = true).
    { intros [ | j ] lumj Hj Hl; [ | lia ].
      injection Hl as <-. reflexivity. }
    apply (proj1 (X20_first_failing_epoch_decides run.C_CONST run.FLUX_CONST
                    run.X_CONST run.ANGSTROM_CGS libm.exp_double
                    run.one_band short_radius 1 1e43 eq_refl Hbefore)).
    left. reflexivity.
  - assert (Hbefore : forall j lumj,
               (j < 0)%nat ->
               nth_error (luminosities run.radio_epoch) j = Some lumj ->
               epoch_completes run.one_band run.radio_epoch j lumj = true).
    { intros j lumj Hj. lia. }
    apply (proj2 (X20_first_failing_epoch_decides run.C_CONST run.FLUX_CONST
                    run.X_CONST run.ANGSTROM_CGS libm.exp_double
                    run.one_band run.radio_epoch 0 1e43 eq_refl Hbefore)).
    exists 1e15, 6000, (-1)%Z, (PNum 1e9). repeat split.
Defined.

End MoreBlackbodyRuns.
